(** * AI_Day_trading: indicator engine, level finder, signal composer,
      stop-loss helper, crossover markers and SQLite cache, embedded
      from [modules/technical_indicators.py], [modules/chart_plotter.py]
      and [modules/database.py].

    Conventions of the embedding.
    - A Python/numpy float is an [fval]: NaN, an infinity, or a
      rational.  Comparisons involving NaN are false, division follows
      numpy (x/0 is an infinity, 0/0 is NaN).  The sign of zero is not
      represented.  The stop-loss helper works with the operations of
      [Binary64], which round every result to the nearest binary64
      number; the series arithmetic of the indicator engine and the
      distances of the level finder are exact.
    - A pandas row is a finite map from column names to floats plus the
      (optional) [date] cell; [row['c']] raises [KeyError] on a missing
      column, [row.get('c', d)] does not.
    - Code that can raise returns a [result]. *)

From Stdlib Require Import ZArith QArith Qcanon Qabs Qpower String Ascii List
  Lia Lqa.
From stdpp Require Import base option numbers strings gmap list sorting.

Open Scope Z_scope.

(** ** Floats *)

Module Float.

Inductive fval : Type :=
  | NaN
  | PInf
  | NInf
  | Fin (q : Qc).

Definition of_Z (z : Z) : fval := Fin (Qc_of_Z z).
Definition of_frac (n : Z) (d : positive) : fval := Fin (Q2Qc (n # d)).

(** The reduced fraction of a finite float. *)
Definition fin_value (x : fval) : option Q :=
  match x with Fin a => Some (this a) | _ => None end.

Definition isnan (x : fval) : bool :=
  match x with NaN => true | _ => false end.

(** [pd.notna] *)
Definition notna (x : fval) : bool := negb (isnan x).

Definition flt (x y : fval) : bool :=
  match x, y with
  | NaN, _ | _, NaN => false
  | NInf, NInf => false
  | NInf, _ => true
  | _, NInf => false
  | PInf, _ => false
  | Fin _, PInf => true
  | Fin a, Fin b => bool_decide (a < b)%Qc
  end.

Definition fle (x y : fval) : bool :=
  match x, y with
  | NaN, _ | _, NaN => false
  | NInf, _ => true
  | _, NInf => false
  | _, PInf => true
  | PInf, Fin _ => false
  | Fin a, Fin b => bool_decide (a <= b)%Qc
  end.

Definition fgt (x y : fval) : bool := flt y x.
Definition fge (x y : fval) : bool := fle y x.

Definition fneg (x : fval) : fval :=
  match x with
  | NaN => NaN
  | PInf => NInf
  | NInf => PInf
  | Fin a => Fin (- a)%Qc
  end.

Definition fabs (x : fval) : fval :=
  match x with
  | NaN => NaN
  | PInf | NInf => PInf
  | Fin a => Fin (if bool_decide (a < 0)%Qc then (- a)%Qc else a)
  end.

Definition fadd (x y : fval) : fval :=
  match x, y with
  | NaN, _ | _, NaN => NaN
  | PInf, NInf | NInf, PInf => NaN
  | PInf, _ | _, PInf => PInf
  | NInf, _ | _, NInf => NInf
  | Fin a, Fin b => Fin (a + b)%Qc
  end.

Definition fsub (x y : fval) : fval := fadd x (fneg y).

(** Sign of a rational as a comparison with zero. *)
Definition qsign (a : Qc) : comparison := (a ?= 0)%Qc.

Definition inf_of_sign (s : comparison) : fval :=
  match s with Lt => NInf | Gt => PInf | Eq => NaN end.

Definition sign_mul (s t : comparison) : comparison :=
  match s, t with
  | Eq, _ | _, Eq => Eq
  | Lt, Lt | Gt, Gt => Gt
  | _, _ => Lt
  end.

Definition fsign (x : fval) : comparison :=
  match x with
  | NaN => Eq
  | PInf => Gt
  | NInf => Lt
  | Fin a => qsign a
  end.

Definition fmul (x y : fval) : fval :=
  match x, y with
  | NaN, _ | _, NaN => NaN
  | Fin a, Fin b => Fin (a * b)%Qc
  | _, _ => inf_of_sign (sign_mul (fsign x) (fsign y))
  end.

(** numpy division: a finite value over zero is an infinity with the
    sign of the numerator, 0/0 and inf/inf are NaN. *)
Definition fdiv (x y : fval) : fval :=
  match x, y with
  | NaN, _ | _, NaN => NaN
  | Fin a, Fin b =>
      if bool_decide (b = 0)%Qc then inf_of_sign (qsign a)
      else Fin (a / b)%Qc
  | Fin _, _ => Fin 0%Qc
  | _, Fin b =>
      match qsign b with
      | Eq => x
      | s => inf_of_sign (sign_mul (fsign x) s)
      end
  | _, _ => NaN
  end.

(** Rounding to the nearest integer, ties to the even one. *)
Definition round_half_even (q : Q) : Z :=
  let n := Qnum q in
  let d := Z.pos (Qden q) in
  let fl := n / d in
  let r2 := 2 * (n mod d) in
  if r2 <? d then fl
  else if d <? r2 then fl + 1
  else if Z.even fl then fl else fl + 1.

(** The decimal with two places nearest to [a], ties to the even last
    digit. *)
Definition qround2 (a : Qc) : Qc :=
  Q2Qc (round_half_even (this a * (100 # 1)) # 100).

End Float.
Export Float.

(** ** Python floats

    A Python [float] is an IEEE 754 binary64 number.  Addition,
    subtraction and multiplication return the exact result rounded to
    the nearest representable number, ties to the even significand, and
    an infinity on overflow; the sign of a zero is not represented. *)

Module Binary64.

(** [2^e] as a rational. *)
Definition pow2 (e : Z) : Q := ((2 # 1) ^ e)%Q.

(** For positive [n] and [d], an exponent [e] with
    [2^e <= n/d < 2^(e+1)]. *)
Definition ilog2 (n d : positive) : Z :=
  let e0 := Z.log2 (Z.pos n) - Z.log2 (Z.pos d) in
  let fits :=
    if 0 <=? e0 then Z.pos d * 2 ^ e0 <=? Z.pos n
    else Z.pos d <=? Z.pos n * 2 ^ (- e0) in
  if fits then e0 else e0 - 1.

(** The exponent of the unit in the last place of the binade of
    [n/d]: 52 bits below the leading one, and the subnormal spacing
    [2^-1074] below [2^-1022]. *)
Definition ulp_exp (n d : positive) : Z := Z.max (ilog2 n d) (-1022) - 52.

(** Round to nearest, ties to even. *)
Definition round (q : Q) : fval :=
  match Qnum q with
  | Z0 => Fin 0
  | Z.pos n | Z.neg n =>
      let e := ulp_exp n (Qden q) in
      let m := round_half_even (q * pow2 (- e)) in
      if (972 <=? e) || ((e =? 971) && (Z.abs m =? 2 ^ 53))
      then (if 0 <? Qnum q then PInf else NInf)
      else Fin (Q2Qc (inject_Z m * pow2 e))
  end.

Definition lift2 (op : Q -> Q -> Q) (exact : fval -> fval -> fval)
    (x y : fval) : fval :=
  match x, y with
  | Fin a, Fin b => round (op (this a) (this b))
  | _, _ => exact x y
  end.

Definition add : fval -> fval -> fval := lift2 Qplus fadd.
Definition sub : fval -> fval -> fval := lift2 Qminus fsub.
Definition mul : fval -> fval -> fval := lift2 Qmult fmul.

(** [round(x, 2)] on a float: the decimal with two places nearest to
    the exact value of [x], ties to the even digit, converted back to
    the nearest float. *)
Definition round2 (x : fval) : fval :=
  match x with
  | Fin a => round (this (qround2 a))
  | _ => x
  end.

(** A literal or a number read from text: the nearest float. *)
Definition of_Q (q : Q) : fval := round q.

End Binary64.

(** ** Exceptions *)

Inductive exn : Type :=
  | KeyError (key : string)
  | IndexError.

Inductive result (A : Type) : Type :=
  | Ok (a : A)
  | Raise (e : exn).
Arguments Ok {A} a.
Arguments Raise {A} e.

#[global] Instance result_ret : MRet result := fun A a => Ok a.
#[global] Instance result_bind : MBind result := fun A B f m =>
  match m with
  | Ok a => f a
  | Raise e => Raise e
  end.

(** Python's short-circuit [and]. *)
Definition py_and (a b : result bool) : result bool :=
  x ← a; if x : bool then b else mret false.

(** ** Rows and frames *)

(** A timestamp: days since 1970-01-01 and seconds into the day. *)
Record Timestamp : Type := mkTimestamp { ts_days : Z; ts_secs : Z }.

Record Row : Type := mkRow {
  row_date : option Timestamp;
  row_cols : gmap string fval
}.

(** [row['c']] *)
Definition getitem (r : Row) (c : string) : result fval :=
  match row_cols r !! c with
  | Some v => Ok v
  | None => Raise (KeyError c)
  end.

(** [row.get('c', d)] *)
Definition get_default (r : Row) (c : string) (d : fval) : fval :=
  default d (row_cols r !! c).

Definition DataFrame : Type := list Row.

(** [df.empty]: no rows, or no columns (the rows of a frame share its
    columns). *)
Definition row_empty (r : Row) : bool :=
  bool_decide (row_date r = None) && bool_decide (row_cols r = ∅).

Definition df_empty (df : DataFrame) : bool := forallb row_empty df.

(** [df.iloc[-k]] for k >= 1. *)
Definition iloc_neg (df : DataFrame) (k : nat) : result Row :=
  match rev df !! pred k with
  | Some r => Ok r
  | None => Raise IndexError
  end.

(** ** Signal composer: [get_daytrading_signals] *)

Inductive Recommendation : Type :=
  | STRONG_BUY | BUY | HOLD | SELL | STRONG_SELL.

Record SigState : Type := mkSigState {
  st_signals : list string;
  st_score : Z
}.

(** [signals['signals'].append(label); strength_score += delta] *)
Definition fire (label : string) (delta : Z) (st : SigState) : SigState :=
  {| st_signals := st_signals st ++ [label];
     st_score := st_score st + delta |}.

Definition cmp (op : fval -> fval -> bool)
    (r1 : Row) (c1 : string) (r2 : Row) (c2 : string) : result bool :=
  a ← getitem r1 c1; b ← getitem r2 c2; mret (op a b).

Definition cmp_const (op : fval -> fval -> bool)
    (r : Row) (c : string) (k : Z) : result bool :=
  a ← getitem r c; mret (op a (of_Z k)).

Definition rule_macd (latest prev : Row) (st : SigState) : result SigState :=
  up ← py_and (cmp fgt latest "MACD" latest "MACD_signal")
              (cmp fle prev "MACD" prev "MACD_signal");
  if up : bool then mret (fire "MACD 金叉 (買進)" 15 st)
  else
    down ← py_and (cmp flt latest "MACD" latest "MACD_signal")
                  (cmp fge prev "MACD" prev "MACD_signal");
    if down : bool then mret (fire "MACD 死叉 (賣出)" (-15) st)
    else mret st.

Definition rule_kd (latest prev : Row) (st : SigState) : result SigState :=
  up ← py_and (cmp fgt latest "KD_K" latest "KD_D")
              (cmp fle prev "KD_K" prev "KD_D");
  if up : bool then
    low ← cmp_const flt latest "KD_K" 30;
    if low : bool then mret (fire "KD 低檔金叉 (強買)" 20 st)
    else mret (fire "KD 金叉 (買進)" 10 st)
  else
    down ← py_and (cmp flt latest "KD_K" latest "KD_D")
                  (cmp fge prev "KD_K" prev "KD_D");
    if down : bool then
      high ← cmp_const fgt latest "KD_K" 70;
      if high : bool then mret (fire "KD 高檔死叉 (強賣)" (-20) st)
      else mret (fire "KD 死叉 (賣出)" (-10) st)
    else mret st.

Definition rule_rsi (latest : Row) (st : SigState) : result SigState :=
  low ← cmp_const flt latest "RSI" 30;
  if low : bool then mret (fire "RSI 超賣 (買進)" 15 st)
  else
    high ← cmp_const fgt latest "RSI" 70;
    if high : bool then mret (fire "RSI 超買 (賣出)" (-15) st)
    else mret st.

Definition rule_williams (latest : Row) (st : SigState) : result SigState :=
  high ← cmp_const fgt latest "Williams_R" (-20);
  if high : bool then mret (fire "Williams %R 超買 (賣出)" (-10) st)
  else
    low ← cmp_const flt latest "Williams_R" (-80);
    if low : bool then mret (fire "Williams %R 超賣 (買進)" 10 st)
    else mret st.

Definition rule_adx (latest : Row) (st : SigState) : result SigState :=
  strong ← cmp_const fgt latest "ADX" 25;
  if strong : bool then
    up ← cmp fgt latest "DI_plus" latest "DI_minus";
    if up : bool then mret (fire "ADX 強勢上漲趨勢" 10 st)
    else mret (fire "ADX 強勢下跌趨勢" (-10) st)
  else mret st.

Definition rule_cci (latest : Row) (st : SigState) : result SigState :=
  high ← cmp_const fgt latest "CCI" 100;
  if high : bool then mret (fire "CCI 超買 (賣出)" (-10) st)
  else
    low ← cmp_const flt latest "CCI" (-100);
    if low : bool then mret (fire "CCI 超賣 (買進)" 10 st)
    else mret st.

Definition rule_obv (df : DataFrame) (latest : Row) (st : SigState)
    : result SigState :=
  if bool_decide (5 <= length df)%nat then
    back ← iloc_neg df 5;
    price_trend ← cmp fgt latest "close" back "close";
    back' ← iloc_neg df 5;
    obv_trend ← cmp fgt latest "OBV" back' "OBV";
    if price_trend && negb obv_trend
    then mret (fire "⚠️ OBV 頂背離 (賣出)" (-15) st)
    else if negb price_trend && obv_trend
    then mret (fire "✅ OBV 底背離 (買進)" 15 st)
    else mret st
  else mret st.

Definition rule_bollinger (latest : Row) (st : SigState) : result SigState :=
  above ← cmp fgt latest "close" latest "BB_upper";
  if above : bool then mret (fire "突破布林上軌 (強勢/超買)" 5 st)
  else
    below ← cmp flt latest "close" latest "BB_lower";
    if below : bool then mret (fire "跌破布林下軌 (弱勢/超賣)" (-5) st)
    else mret st.

Definition rule_volume (latest : Row) (st : SigState) : result SigState :=
  surge ← cmp_const fgt latest "Volume_Ratio" 150;
  if surge : bool then mret (fire "🔥 成交量爆量 (注意)" 5 st)
  else mret st.

Definition rule_roc (latest : Row) (st : SigState) : result SigState :=
  strong ← cmp_const fgt latest "ROC_5" 5;
  if strong : bool then mret (fire "短期動能強勁" 10 st)
  else
    weak ← cmp_const flt latest "ROC_5" (-5);
    if weak : bool then mret (fire "短期動能疲弱" (-10) st)
    else mret st.

(** [max(min(strength_score, 100), -100)] *)
Definition clamp_strength (score : Z) : Z := Z.max (Z.min score 100) (-100).

Definition classify (score : Z) : Recommendation :=
  if 30 <=? score then STRONG_BUY
  else if 15 <=? score then BUY
  else if score <=? -30 then STRONG_SELL
  else if score <=? -15 then SELL
  else HOLD.

Record SignalReport : Type := mkSignalReport {
  timestamp : option Timestamp;
  price : fval;
  signals : list string;
  strength : Z;
  recommendation : Recommendation
}.

Definition get_daytrading_signals (df : DataFrame)
    : result (option SignalReport) :=
  if df_empty df || bool_decide (length df < 2)%nat then mret None
  else
    latest ← iloc_neg df 1;
    prev ← iloc_neg df 2;
    close ← getitem latest "close";
    st ← rule_macd latest prev (mkSigState [] 0);
    st ← rule_kd latest prev st;
    st ← rule_rsi latest st;
    st ← rule_williams latest st;
    st ← rule_adx latest st;
    st ← rule_cci latest st;
    st ← rule_obv df latest st;
    st ← rule_bollinger latest st;
    st ← rule_volume latest st;
    st ← rule_roc latest st;
    mret (Some {| timestamp := row_date latest;
                  price := close;
                  signals := st_signals st;
                  strength := clamp_strength (st_score st);
                  recommendation := classify (st_score st) |}).

(** ** Calendar and text rendering of timestamps

    Python's [datetime] and SQLite's [datetime('now')] both use the
    proleptic Gregorian calendar; a day count is turned into a civil
    date by the usual era/day-of-era computation. *)

Module Calendar.

Definition civil_from_days (days : Z) : Z * Z * Z :=
  let z := days + 719468 in
  let era := z / 146097 in
  let doe := z - era * 146097 in
  let yoe := (doe - doe / 1460 + doe / 36524 - doe / 146096) / 365 in
  let doy := doe - (365 * yoe + yoe / 4 - yoe / 100) in
  let mp := (5 * doy + 2) / 153 in
  let d := doy - (153 * mp + 2) / 5 + 1 in
  let m := if mp <? 10 then mp + 3 else mp - 9 in
  let y := yoe + era * 400 + (if m <=? 2 then 1 else 0) in
  (y, m, d).

Definition digit (n : Z) : ascii := ascii_of_nat (48 + Z.to_nat (n mod 10)).

Definition pad2 (n : Z) : string :=
  String (digit (n / 10)) (String (digit n) EmptyString).

Definition pad4 (n : Z) : string := pad2 (n / 100) +:+ pad2 n.

Definition pad6 (n : Z) : string := pad4 (n / 100) +:+ pad2 n.

(** [%Y-%m-%d] *)
Definition fmt_date (days : Z) : string :=
  let '(y, m, d) := civil_from_days days in
  pad4 y +:+ "-" +:+ pad2 m +:+ "-" +:+ pad2 d.

(** [%H:%M:%S] *)
Definition fmt_time (secs : Z) : string :=
  pad2 (secs / 3600) +:+ ":" +:+ pad2 (secs / 60 mod 60) +:+ ":"
    +:+ pad2 (secs mod 60).

(** [ts.strftime("%m/%d")] *)
Definition strftime_md (t : Timestamp) : string :=
  let '(_, m, d) := civil_from_days (ts_days t) in
  pad2 m +:+ "/" +:+ pad2 d.

(** [ts.strftime('%Y-%m-%d')] *)
Definition strftime_ymd (t : Timestamp) : string := fmt_date (ts_days t).

Definition year_of (days : Z) : Z := (civil_from_days days).1.1.

End Calendar.

(** ** Stop-loss helper: [calculate_stop_loss_take_profit] *)

Record StopLossTakeProfit : Type := mkSLTP {
  stop_loss : fval;
  take_profit : fval;
  conservative_stop : fval;
  aggressive_stop : fval;
  risk_amount : fval;
  reward_amount : fval;
  risk_reward_ratio : fval
}.

(** The arguments are Python floats. *)
Definition calculate_stop_loss_take_profit
    (current_price atr ratio : fval) : StopLossTakeProfit :=
  let stop := Binary64.sub current_price (Binary64.mul atr (of_Z 2)) in
  let take :=
    Binary64.add current_price
      (Binary64.mul (Binary64.mul atr (of_Z 2)) ratio) in
  let conservative :=
    Binary64.sub current_price (Binary64.mul atr (of_frac 3 2)) in
  let aggressive :=
    Binary64.sub current_price (Binary64.mul atr (of_frac 5 2)) in
  {| stop_loss := Binary64.round2 stop;
     take_profit := Binary64.round2 take;
     conservative_stop := Binary64.round2 conservative;
     aggressive_stop := Binary64.round2 aggressive;
     risk_amount := Binary64.round2 (Binary64.sub current_price stop);
     reward_amount := Binary64.round2 (Binary64.sub take current_price);
     risk_reward_ratio := ratio |}.

(** The keyword default [risk_reward_ratio=2]. *)
Definition calculate_stop_loss_take_profit_default
    (current_price atr : fval) : StopLossTakeProfit :=
  calculate_stop_loss_take_profit current_price atr (of_Z 2).

(** The float [x] is finite and at most [e] away from [q]. *)
Definition near (e : Q) (x : fval) (q : Q) : Prop :=
  exists v : Qc, x = Fin v /\ (Qabs (this v - q) <= e)%Q.

Definition within_a_cent : fval -> Q -> Prop := near (1 # 100).

(** The float nearest to a whole number of cents. *)
Definition whole_cents (x : fval) : Prop :=
  exists n : Z, x = Binary64.round (this (Q2Qc (n # 100))).

(** What the helper returns for the exact amount [q]: a float that
    stands for a whole number of cents and is at most a cent away. *)
Definition in_cents (x : fval) (q : Q) : Prop :=
  within_a_cent x q /\ whole_cents x.

(** ** Level finder: [calculate_support_resistance] *)

Record Level : Type := mkLevel {
  lv_price : fval;
  lv_desc : string;
  lv_strength : string
}.

Record Levels : Type := mkLevels {
  support : list Level;
  resistance : list Level
}.

Definition add_support (l : Level) (ls : Levels) : Levels :=
  {| support := support ls ++ [l]; resistance := resistance ls |}.

Definition add_resistance (l : Level) (ls : Levels) : Levels :=
  {| support := support ls; resistance := resistance ls ++ [l] |}.

(** 1. moving averages, in the insertion order of the [ma_levels] dict *)
Definition add_ma (latest : Row) (current_price : fval)
    (ls : Levels) (ma_name : string) : Levels :=
  let ma_value := get_default latest ma_name (of_Z 0) in
  if notna ma_value && fgt ma_value (of_Z 0) then
    if flt ma_value current_price then
      add_support (mkLevel ma_value (ma_name +:+ " 支撐") "medium") ls
    else if fgt ma_value current_price then
      add_resistance (mkLevel ma_value (ma_name +:+ " 壓力") "medium") ls
    else ls
  else ls.

Definition add_mas (latest : Row) (current_price : fval) (ls : Levels)
    : Levels :=
  foldl (add_ma latest current_price) ls ["MA5"; "MA10"; "MA20"; "MA60"].

(** 2. Bollinger bands *)
Definition add_bollinger (latest : Row) (current_price : fval)
    (ls : Levels) : Levels :=
  let bb_upper := get_default latest "BB_upper" (of_Z 0) in
  let bb_lower := get_default latest "BB_lower" (of_Z 0) in
  let ls :=
    if notna bb_upper && fgt bb_upper current_price
    then add_resistance (mkLevel bb_upper "布林上軌壓力" "strong") ls
    else ls in
  if notna bb_lower && flt bb_lower current_price
  then add_support (mkLevel bb_lower "布林下軌支撐" "strong") ls
  else ls.

(** 3. SAR and 4. VWAP share one shape: support below the close,
    resistance otherwise. *)
Definition add_below_or_else (latest : Row) (current_price : fval)
    (col sup_desc res_desc : string) (ls : Levels) : Levels :=
  let v := get_default latest col (of_Z 0) in
  if notna v && fgt v (of_Z 0) then
    if flt v current_price
    then add_support (mkLevel v sup_desc "strong") ls
    else add_resistance (mkLevel v res_desc "strong") ls
  else ls.

Definition add_sar (latest : Row) (current_price : fval) : Levels -> Levels :=
  add_below_or_else latest current_price "SAR" "SAR 追蹤止損" "SAR 壓力".

Definition add_vwap (latest : Row) (current_price : fval) : Levels -> Levels :=
  add_below_or_else latest current_price "VWAP"
    "VWAP 平均成本支撐" "VWAP 平均成本壓力".

(** [df.tail(n)] *)
Definition tail_rows (n : nat) (df : DataFrame) : DataFrame :=
  drop (length df - n) df.

Definition date_cell (r : Row) : result Timestamp :=
  match row_date r with
  | Some t => Ok t
  | None => Raise (KeyError "date")
  end.

Definition cmp_val (op : fval -> fval -> bool)
    (r : Row) (c : string) (v : fval) : result bool :=
  a ← getitem r c; mret (op a v).

(** 5. local extrema of the trailing window: the loop
    [for i in range(1, len(recent_data) - 1)] sees each interior row
    with its two neighbours. *)
Fixpoint local_highs (current_price : fval) (recent : list Row)
    (ls : Levels) : result Levels :=
  match recent with
  | before :: ((here :: after :: _) as rest) =>
      hit ← py_and (cmp fgt here "high" before "high")
             (py_and (cmp fgt here "high" after "high")
                     (cmp_val fgt here "high" current_price));
      ls' ← (if hit : bool then
               h ← getitem here "high";
               d ← date_cell here;
               mret (add_resistance
                       (mkLevel h ("近期高點 (" +:+ Calendar.strftime_md d +:+ ")")
                                "medium") ls)
             else mret ls);
      local_highs current_price rest ls'
  | _ => mret ls
  end.

Fixpoint local_lows (current_price : fval) (recent : list Row)
    (ls : Levels) : result Levels :=
  match recent with
  | before :: ((here :: after :: _) as rest) =>
      hit ← py_and (cmp flt here "low" before "low")
             (py_and (cmp flt here "low" after "low")
                     (cmp_val flt here "low" current_price));
      ls' ← (if hit : bool then
               l ← getitem here "low";
               d ← date_cell here;
               mret (add_support
                       (mkLevel l ("近期低點 (" +:+ Calendar.strftime_md d +:+ ")")
                                "medium") ls)
             else mret ls);
      local_lows current_price rest ls'
  | _ => mret ls
  end.

(** 6. ATR bands *)
Definition add_atr (latest : Row) (current_price : fval) (ls : Levels)
    : Levels :=
  let atr_value := get_default latest "ATR" (of_Z 0) in
  if notna atr_value && fgt atr_value (of_Z 0) then
    add_resistance
      (mkLevel (fadd current_price (fmul atr_value (of_Z 2)))
               "ATR 2倍目標價" "medium")
      (add_support
         (mkLevel (fsub current_price (fmul atr_value (of_Z 2)))
                  "ATR 2倍止損點" "strong") ls)
  else ls.

(** [sorted(levels, key=lambda x: x['price'])]: a stable sort; an
    element moves past the ones whose key is strictly smaller. *)
Fixpoint insert_asc (x : Level) (l : list Level) : list Level :=
  match l with
  | [] => [x]
  | y :: ys =>
      if flt (lv_price y) (lv_price x) then y :: insert_asc x ys
      else x :: l
  end.

Definition sorted_asc (l : list Level) : list Level :=
  foldr insert_asc [] l.

(** [sorted(levels, key=..., reverse=True)]: stable, descending. *)
Fixpoint insert_desc (x : Level) (l : list Level) : list Level :=
  match l with
  | [] => [x]
  | y :: ys =>
      if flt (lv_price x) (lv_price y) then y :: insert_desc x ys
      else x :: l
  end.

Definition sorted_desc (l : list Level) : list Level :=
  foldr insert_desc [] l.

Definition tolerance_default : fval := of_frac 5 1000.

(** [abs(level['price'] - prev['price']) / prev['price']] *)
Definition relative_distance (level prev : Level) : fval :=
  fdiv (fabs (fsub (lv_price level) (lv_price prev))) (lv_price prev).

Definition remove_close_step (tolerance : fval)
    (filtered : list Level) (level : Level) : list Level :=
  match last filtered with
  | Some prev =>
      if fgt (relative_distance level prev) tolerance
      then filtered ++ [level]
      else filtered
  | None => filtered
  end.

Definition remove_close_levels (levels : list Level) (tolerance : fval)
    : list Level :=
  match levels with
  | [] => []
  | first :: rest => foldl (remove_close_step tolerance) [first] rest
  end.

(** [l[:n]] for a Python integer [n]. *)
Definition slice_to {A} (n : Z) (l : list A) : list A :=
  if 0 <=? n then take (Z.to_nat n) l
  else take (length l - Z.to_nat (- n)) l.

Record SupportResistance : Type := mkSR {
  sr_support : list Level;
  sr_resistance : list Level;
  sr_current_price : fval
}.

Definition num_levels_default : Z := 3.

Definition calculate_support_resistance (df : DataFrame) (num_levels : Z)
    : result SupportResistance :=
  latest ← iloc_neg df 1;
  current_price ← getitem latest "close";
  let ls := add_mas latest current_price (mkLevels [] []) in
  let ls := add_bollinger latest current_price ls in
  let ls := add_sar latest current_price ls in
  let ls := add_vwap latest current_price ls in
  let recent_data := tail_rows 20 df in
  ls ← local_highs current_price recent_data ls;
  ls ← local_lows current_price recent_data ls;
  let ls := add_atr latest current_price ls in
  let support_levels := sorted_desc (support ls) in
  let resistance_levels := sorted_asc (resistance ls) in
  let support_levels := remove_close_levels support_levels tolerance_default in
  let resistance_levels :=
    remove_close_levels resistance_levels tolerance_default in
  mret {| sr_support := slice_to num_levels support_levels;
          sr_resistance := slice_to num_levels resistance_levels;
          sr_current_price := current_price |}.


(** ** Indicator engine: the columns [calculate_technical_indicators]
    computes itself (the oscillators come from the [ta] package). *)

Module Indicators.

(** Series arithmetic is elementwise on the shared index. *)
Definition series_add : list fval -> list fval -> list fval := zip_with fadd.
Definition series_mul : list fval -> list fval -> list fval := zip_with fmul.
Definition series_div : list fval -> list fval -> list fval := zip_with fdiv.
Definition series_div_const (k : Z) (s : list fval) : list fval :=
  (fun x => fdiv x (of_Z k)) <$> s.

Definition series_sub : list fval -> list fval -> list fval := zip_with fsub.
Definition series_mul_const (k : Z) (s : list fval) : list fval :=
  (fun x => fmul x (of_Z k)) <$> s.

Definition fsum (l : list fval) : fval := foldl fadd (of_Z 0) l.

(** [series.rolling(window=w).mean()] for a window [w > 0]: NaN until
    [w] rows are available and whenever the window holds a NaN,
    otherwise the mean of the last [w] cells. *)
Definition rolling_mean (w : nat) (s : list fval) : list fval :=
  imap (fun i _ =>
          if (S i <? w)%nat then NaN
          else
            let window := take w (drop (S i - w) s) in
            if existsb isnan window then NaN
            else fdiv (fsum window) (of_Z (Z.of_nat w))) s.

(** [series.shift(k)] *)
Definition shift (k : nat) (s : list fval) : list fval :=
  take (length s) (replicate k NaN ++ s).

(** [df['OBV'].rolling(window=5).mean()] and the volume averages. *)
Definition OBV_MA5 (obv : list fval) : list fval := rolling_mean 5 obv.
Definition Volume_MA5 (volume : list fval) : list fval := rolling_mean 5 volume.
Definition Volume_MA20 (volume : list fval) : list fval :=
  rolling_mean 20 volume.
Definition Volume_Ratio (volume : list fval) : list fval :=
  series_mul_const 100 (series_div volume (Volume_MA20 volume)).

(** [((close - close.shift(k)) / close.shift(k)) * 100] *)
Definition ROC (k : nat) (close : list fval) : list fval :=
  series_mul_const 100
    (series_div (series_sub close (shift k close)) (shift k close)).

(** [df.groupby(keys)[col].cumsum()]: one running sum per key, rows
    visited in frame order; a NaN cell stays NaN and is left out of the
    running sum. *)
Fixpoint groupby_cumsum_from (acc : gmap Z fval)
    (keys : list Z) (vals : list fval) : list fval :=
  match keys, vals with
  | k :: ks, v :: vs =>
      if isnan v then NaN :: groupby_cumsum_from acc ks vs
      else
        let s := fadd (default (of_Z 0) (acc !! k)) v in
        s :: groupby_cumsum_from (<[k := s]> acc) ks vs
  | _, _ => []
  end.

Definition groupby_cumsum : list Z -> list fval -> list fval :=
  groupby_cumsum_from ∅.

(** [pd.to_datetime(df['date']).dt.date] *)
Definition date_only (dates : list Timestamp) : list Z := ts_days <$> dates.

Definition typical_price (high low close : list fval) : list fval :=
  series_div_const 3 (series_add (series_add high low) close).

(** The VWAP block of lines 117-131, a part of
    [calculate_technical_indicators] below; [None] when the frame has
    no [date] column, in which case no VWAP column is added. *)
Definition vwap_column (date : option (list Timestamp))
    (high low close volume : list fval) : option (list fval) :=
  match date with
  | None => None
  | Some dates =>
      let days := date_only dates in
      let tp_volume := series_mul (typical_price high low close) volume in
      let cumulative_tp_volume := groupby_cumsum days tp_volume in
      let cumulative_volume := groupby_cumsum days volume in
      Some (series_div cumulative_tp_volume cumulative_volume)
  end.

(** Sum of the non-NaN cells of the rows [0..i] that carry the same
    day as row [i], added in row order. *)
Definition same_day_cells (days : list Z) (vals : list fval) (i : nat)
    : list fval :=
  match days !! i with
  | Some d =>
      snd <$> filter (fun kv => kv.1 = d ∧ isnan kv.2 = false)
                     (take (S i) (zip days vals))
  | None => []
  end.

(** The cumulative sum within the day of row [i]. *)
Definition within_day_cumsum (days : list Z) (vals : list fval) (i : nat)
    : fval :=
  match vals !! i with
  | Some v => if isnan v then NaN else fsum (same_day_cells days vals i)
  | None => NaN
  end.

(** *** The function as a whole *)

(** [np.maximum]: a NaN on either side gives NaN. *)
Definition np_maximum (x y : fval) : fval :=
  if isnan x then x else if isnan y then y else if flt x y then y else x.

Definition series_abs (s : list fval) : list fval := fabs <$> s.

(** [((close - ma) / ma) * 100] *)
Definition BIAS (close ma : list fval) : list fval :=
  series_mul_const 100 (series_div (series_sub close ma) ma).

Definition True_Range (high low close : list fval) : list fval :=
  zip_with np_maximum (series_sub high low)
    (zip_with np_maximum
       (series_abs (series_sub high (shift 1 close)))
       (series_abs (series_sub low (shift 1 close)))).

(** The columns of the input frame that the function reads. *)
Record Frame : Type := mkFrame {
  f_date : option (list Timestamp);
  f_high : list fval;
  f_low : list fval;
  f_close : list fval;
  f_volume : list fval
}.

(** The columns computed by the classes of the [ta] package. *)
Record TaColumns : Type := mkTaColumns {
  ta_MA5 : list fval; ta_MA10 : list fval; ta_MA20 : list fval;
  ta_MA60 : list fval; ta_EMA12 : list fval; ta_EMA26 : list fval;
  ta_BB_upper : list fval; ta_BB_middle : list fval;
  ta_BB_lower : list fval; ta_BB_width : list fval;
  ta_BB_pband : list fval;
  ta_MACD : list fval; ta_MACD_signal : list fval; ta_MACD_hist : list fval;
  ta_RSI : list fval; ta_RSI_6 : list fval; ta_RSI_24 : list fval;
  ta_KD_K : list fval; ta_KD_D : list fval; ta_Williams_R : list fval;
  ta_ATR : list fval; ta_OBV : list fval;
  ta_ADX : list fval; ta_DI_plus : list fval; ta_DI_minus : list fval;
  ta_CCI : list fval;
  ta_SAR : list fval; ta_SAR_up : list fval; ta_SAR_down : list fval
}.

(** The frame that is returned: the package's columns and the columns
    the function computes itself; [ind_VWAP] is [None] when no VWAP
    column is added. *)
Record IndicatorFrame : Type := mkIndicatorFrame {
  ind_ta : TaColumns;
  ind_ATR_percent : list fval;
  ind_OBV_MA5 : list fval;
  ind_VWAP : option (list fval);
  ind_BIAS_5 : list fval;
  ind_BIAS_10 : list fval;
  ind_BIAS_20 : list fval;
  ind_Volume_MA5 : list fval;
  ind_Volume_MA20 : list fval;
  ind_Volume_Ratio : list fval;
  ind_ROC_5 : list fval;
  ind_ROC_10 : list fval;
  ind_True_Range : list fval;
  ind_TR_percent : list fval
}.

Section Engine.

(** The calls into the [ta] package, taken together: they read the
    price and volume columns of the frame, which the function never
    changes, and return their columns or raise. *)
Variable ta : Frame -> result TaColumns.

Definition calculate_technical_indicators (df : Frame)
    : result IndicatorFrame :=
  t ← ta df;
  let true_range := True_Range (f_high df) (f_low df) (f_close df) in
  mret {| ind_ta := t;
          ind_ATR_percent :=
            series_mul_const 100 (series_div (ta_ATR t) (f_close df));
          ind_OBV_MA5 := OBV_MA5 (ta_OBV t);
          ind_VWAP :=
            vwap_column (f_date df) (f_high df) (f_low df) (f_close df)
              (f_volume df);
          ind_BIAS_5 := BIAS (f_close df) (ta_MA5 t);
          ind_BIAS_10 := BIAS (f_close df) (ta_MA10 t);
          ind_BIAS_20 := BIAS (f_close df) (ta_MA20 t);
          ind_Volume_MA5 := Volume_MA5 (f_volume df);
          ind_Volume_MA20 := Volume_MA20 (f_volume df);
          ind_Volume_Ratio := Volume_Ratio (f_volume df);
          ind_ROC_5 := ROC 5 (f_close df);
          ind_ROC_10 := ROC 10 (f_close df);
          ind_True_Range := true_range;
          ind_TR_percent :=
            series_mul_const 100 (series_div true_range (f_close df)) |}.

End Engine.

End Indicators.

(** ** SQLite cache: [StockDatabase] *)

Module Db.

(** The wall clock: UTC seconds since 1970, microseconds, and the
    offset of local time from UTC in seconds. *)
Record Clock : Type := mkClock {
  clk_unix : Z;
  clk_micro : Z;
  clk_tz : Z
}.

(** SQLite [datetime('now')] and [CURRENT_TIMESTAMP]: UTC text. *)
Definition sqlite_now (c : Clock) : string :=
  Calendar.fmt_date (clk_unix c / 86400) +:+ " "
    +:+ Calendar.fmt_time (clk_unix c mod 86400).

(** A naive Python [datetime]: seconds on the local wall clock. *)
Record datetime : Type := mkDatetime { dt_secs : Z; dt_micro : Z }.

(** [datetime.now()] *)
Definition datetime_now (c : Clock) : datetime :=
  {| dt_secs := clk_unix c + clk_tz c; dt_micro := clk_micro c |}.

(** [dt + timedelta(hours=h)] *)
Definition add_hours (dt : datetime) (h : Z) : datetime :=
  {| dt_secs := dt_secs dt + h * 3600; dt_micro := dt_micro dt |}.

(** Python dates live in the years 1..9999; beyond, the addition
    raises [OverflowError]. *)
Definition representable (dt : datetime) : bool :=
  let y := Calendar.year_of (dt_secs dt / 86400) in
  (1 <=? y) && (y <=? 9999).

(** [dt.isoformat()] *)
Definition isoformat (dt : datetime) : string :=
  Calendar.fmt_date (dt_secs dt / 86400) +:+ "T"
    +:+ Calendar.fmt_time (dt_secs dt mod 86400)
    +:+ (if dt_micro dt =? 0 then EmptyString
         else "." +:+ Calendar.pad6 (dt_micro dt)).

(** *** Tables with an AUTOINCREMENT id and one UNIQUE constraint *)

Record Table (R : Type) : Type := mkTable {
  tbl_rows : list R;
  tbl_seq : Z
}.
Arguments mkTable {R} _ _.
Arguments tbl_rows {R} _.
Arguments tbl_seq {R} _.

Section Table.
Context {R K : Type} `{EqDecision K} (key : R -> K).

Definition conflicts (k : K) (t : Table R) : bool :=
  bool_decide (k ∈ key <$> tbl_rows t).

(** [INSERT]: a UNIQUE conflict aborts the statement. *)
Definition sql_insert (mk : Z -> R) (t : Table R) : option (Table R) :=
  let r := mk (tbl_seq t + 1) in
  if conflicts (key r) t then None
  else Some {| tbl_rows := tbl_rows t ++ [r]; tbl_seq := tbl_seq t + 1 |}.

(** A multi-row [INSERT ... VALUES (...), (...)]. *)
Fixpoint sql_insert_many (mks : list (Z -> R)) (t : Table R)
    : option (Table R) :=
  match mks with
  | [] => Some t
  | mk :: rest => t' ← sql_insert mk t; sql_insert_many rest t'
  end.

(** [INSERT OR REPLACE]: conflicting rows are deleted first. *)
Definition sql_insert_or_replace (mk : Z -> R) (t : Table R) : Table R :=
  let r := mk (tbl_seq t + 1) in
  {| tbl_rows := filter (fun x => key x <> key r) (tbl_rows t) ++ [r];
     tbl_seq := tbl_seq t + 1 |}.

(** [DELETE FROM t WHERE P] *)
Definition sql_delete (P : R -> Prop) `{forall r, Decision (P r)}
    (t : Table R) : Table R :=
  {| tbl_rows := filter (fun r => ~ P r) (tbl_rows t);
     tbl_seq := tbl_seq t |}.
End Table.

Record PriceRow : Type := mkPriceRow {
  sp_id : Z;
  sp_symbol : string;
  sp_date : string;
  sp_open : fval;
  sp_high : fval;
  sp_low : fval;
  sp_close : fval;
  sp_volume : fval;
  sp_created_at : string
}.

Record InstRow : Type := mkInstRow {
  it_id : Z;
  it_symbol : string;
  it_date : string;
  it_foreign_investor : fval;
  it_investment_trust : fval;
  it_dealer_self : fval;
  it_dealer_hedging : fval;
  it_dealer_total : fval;
  it_total_institutional : fval;
  it_created_at : string;
  it_updated_at : string
}.

Record NewsRow : Type := mkNewsRow {
  nc_id : Z;
  nc_symbol : string;
  nc_content : string;
  nc_source : string;
  nc_created_at : string;
  nc_expires_at : string
}.

Record Database : Type := mkDatabase {
  stock_prices : Table PriceRow;
  institutional_trades : Table InstRow;
  news_cache : Table NewsRow
}.

(** [_create_tables] on a fresh file. *)
Definition empty_db : Database :=
  {| stock_prices := mkTable [] 0;
     institutional_trades := mkTable [] 0;
     news_cache := mkTable [] 0 |}.

(** UNIQUE(symbol, date) *)
Definition price_key (r : PriceRow) : string * string :=
  (sp_symbol r, sp_date r).
Definition inst_key (r : InstRow) : string * string :=
  (it_symbol r, it_date r).
(** UNIQUE(symbol, created_at) *)
Definition news_key (r : NewsRow) : string * string :=
  (nc_symbol r, nc_created_at r).

(** *** [save_stock_data] *)

(** One row of the price frame; [bar_date] is the text
    [astype(str)] gives for the date cell. *)
Record PriceBar : Type := mkPriceBar {
  bar_date : string;
  bar_open : fval;
  bar_high : fval;
  bar_low : fval;
  bar_close : fval;
  bar_volume : fval
}.

Definition price_row_of (symbol : string) (now : Clock) (b : PriceBar)
    (id : Z) : PriceRow :=
  {| sp_id := id; sp_symbol := symbol; sp_date := bar_date b;
     sp_open := bar_open b; sp_high := bar_high b; sp_low := bar_low b;
     sp_close := bar_close b; sp_volume := bar_volume b;
     sp_created_at := sqlite_now now |}.

(** [to_sql(..., if_exists='append', method='multi')] is one plain
    multi-row [INSERT]; when it raises, the handler rolls back.  SQLite's
    limit on the number of bound values per statement is outside the
    model. *)
Definition save_stock_data (db : Database) (symbol : string)
    (df : option (list PriceBar)) (now : Clock) : Database :=
  match df with
  | None | Some [] => db
  | Some bars =>
      match sql_insert_many price_key
              (price_row_of symbol now <$> bars) (stock_prices db) with
      | Some t =>
          {| stock_prices := t;
             institutional_trades := institutional_trades db;
             news_cache := news_cache db |}
      | None => db
      end
  end.

(** *** [save_institutional_data] *)

Record InstIn : Type := mkInstIn {
  in_date : Timestamp;
  in_cells : gmap string fval
}.

Record InstFrame : Type := mkInstFrame {
  if_columns : list string;
  if_rows : list InstIn
}.

Definition required_columns : list string :=
  ["date"; "Foreign_Investor"; "Investment_Trust"; "Dealer_Self";
   "Dealer_Hedging"; "Dealer_Total"; "Total"].

Definition missing_columns (f : InstFrame) : list string :=
  filter (fun c => c ∉ if_columns f) required_columns.

(** [df.empty]: no rows or no columns. *)
Definition inst_empty (f : InstFrame) : bool :=
  bool_decide (if_rows f = []) || bool_decide (if_columns f = []).

(** [float(row[c])] *)
Definition cell (r : InstIn) (c : string) : result fval :=
  match in_cells r !! c with
  | Some v => Ok v
  | None => Raise (KeyError c)
  end.

Definition inst_row_of (symbol : string) (now : Clock) (r : InstIn)
    : result (Z -> InstRow) :=
  fi ← cell r "Foreign_Investor";
  tr ← cell r "Investment_Trust";
  ds ← cell r "Dealer_Self";
  dh ← cell r "Dealer_Hedging";
  dt ← cell r "Dealer_Total";
  tot ← cell r "Total";
  mret (fun id =>
    {| it_id := id; it_symbol := symbol;
       it_date := Calendar.strftime_ymd (in_date r);
       it_foreign_investor := fi; it_investment_trust := tr;
       it_dealer_self := ds; it_dealer_hedging := dh;
       it_dealer_total := dt; it_total_institutional := tot;
       it_created_at := sqlite_now now;
       it_updated_at := sqlite_now now |}).

(** The [for _, row in df_copy.iterrows()] loop. *)
Fixpoint insert_inst_rows (symbol : string) (now : Clock)
    (rows : list InstIn) (t : Table InstRow) : result (Table InstRow) :=
  match rows with
  | [] => mret t
  | r :: rest =>
      mk ← inst_row_of symbol now r;
      insert_inst_rows symbol now rest (sql_insert_or_replace inst_key mk t)
  end.

Definition save_institutional_data (db : Database) (symbol : string)
    (df : option InstFrame) (now : Clock) : Database * bool :=
  match df with
  | None => (db, false)
  | Some f =>
      if inst_empty f then (db, false)
      else if bool_decide (missing_columns f <> []) then (db, false)
      else
        let cleared :=
          sql_delete (fun r => it_symbol r = symbol)
                     (institutional_trades db) in
        match insert_inst_rows symbol now (if_rows f) cleared with
        | Ok t =>
            ({| stock_prices := stock_prices db;
                institutional_trades := t;
                news_cache := news_cache db |}, true)
        | Raise _ => (db, false)
        end
  end.

(** *** [save_news_cache] and [get_news_cache] *)

Definition source_default : string := "perplexity".
Definition expires_hours_default : Z := 24.

Definition save_news_cache (db : Database) (symbol content source : string)
    (expires_hours : Z) (now : Clock) : Database :=
  let expires := add_hours (datetime_now now) expires_hours in
  if representable expires then
    let mk id :=
      {| nc_id := id; nc_symbol := symbol; nc_content := content;
         nc_source := source; nc_created_at := sqlite_now now;
         nc_expires_at := isoformat expires |} in
    {| stock_prices := stock_prices db;
       institutional_trades := institutional_trades db;
       news_cache := sql_insert_or_replace news_key mk (news_cache db) |}
  else db.

Record NewsHit : Type := mkNewsHit {
  hit_content : string;
  hit_source : string;
  hit_created_at : string
}.

(** [WHERE symbol = ? AND expires_at > datetime('now')], text
    comparison. *)
Definition news_live (symbol : string) (now : Clock) (r : NewsRow) : Prop :=
  nc_symbol r = symbol ∧ String.ltb (sqlite_now now) (nc_expires_at r) = true.

#[global] Instance news_live_dec symbol now r :
  Decision (news_live symbol now r).
Proof. unfold news_live. apply _. Defined.

(** [ORDER BY created_at DESC LIMIT 1] *)
Definition newest (best : option NewsRow) (r : NewsRow) : option NewsRow :=
  match best with
  | None => Some r
  | Some b =>
      if String.ltb (nc_created_at b) (nc_created_at r) then Some r else best
  end.

Definition get_news_cache (db : Database) (symbol : string) (now : Clock)
    : option NewsHit :=
  let live := filter (news_live symbol now) (tbl_rows (news_cache db)) in
  (fun r => mkNewsHit (nc_content r) (nc_source r) (nc_created_at r))
    <$> foldl newest None live.

(** *** Vocabulary for the statements about the institutional table *)

(** Every row of the frame has a value in each numeric column. *)
Definition has_cells (x : InstIn) : Prop :=
  forall c, c ∈ required_columns -> c <> "date" -> is_Some (in_cells x !! c).

Definition complete (f : InstFrame) : Prop := Forall has_cells (if_rows f).

(** The stored row [r] is the frame row [x] saved under [symbol]. *)
Definition stores (symbol : string) (x : InstIn) (r : InstRow) : Prop :=
  it_symbol r = symbol
  /\ it_date r = Calendar.strftime_ymd (in_date x)
  /\ in_cells x !! "Foreign_Investor" = Some (it_foreign_investor r)
  /\ in_cells x !! "Investment_Trust" = Some (it_investment_trust r)
  /\ in_cells x !! "Dealer_Self" = Some (it_dealer_self r)
  /\ in_cells x !! "Dealer_Hedging" = Some (it_dealer_hedging r)
  /\ in_cells x !! "Dealer_Total" = Some (it_dealer_total r)
  /\ in_cells x !! "Total" = Some (it_total_institutional r).

Definition rows_of (symbol : string) (t : Table InstRow) : list InstRow :=
  filter (fun r => it_symbol r = symbol) (tbl_rows t).

Definition rows_not_of (symbol : string) (t : Table InstRow) : list InstRow :=
  filter (fun r => it_symbol r <> symbol) (tbl_rows t).

(** The date text a frame row is stored under. *)
Definition date_text (x : InstIn) : string :=
  Calendar.strftime_ymd (in_date x).

(** What an upsert keyed by (symbol, date) leaves of a batch, in the
    words of the contract: of the rows that share a date the last one,
    the rows in batch order. *)
Fixpoint last_per_date (rows : list InstIn) : list InstIn :=
  match rows with
  | [] => []
  | x :: rest =>
      if bool_decide (date_text x ∈ date_text <$> rest)
      then last_per_date rest
      else x :: last_per_date rest
  end.

(** The keys the rows of a batch are stored under. *)
Definition batch_keys (symbol : string) (rows : list InstIn)
    : list (string * string) :=
  (fun x => (symbol, date_text x)) <$> rows.

(** Both time stamps of the stored row are the time of the save. *)
Definition stamped (now : Clock) (r : InstRow) : Prop :=
  it_created_at r = sqlite_now now /\ it_updated_at r = sqlite_now now.

End Db.

(** Orders on levels; [far_apart tol a b] says that [b], met after the
    kept level [a], passes the merge test. *)
Definition priced (l : Level) : Prop := isnan (lv_price l) = false.
Definition price_desc (a b : Level) : Prop :=
  fle (lv_price b) (lv_price a) = true.
Definition price_asc (a b : Level) : Prop :=
  fle (lv_price a) (lv_price b) = true.
Definition far_apart (tolerance : fval) (a b : Level) : Prop :=
  fgt (relative_distance b a) tolerance = true.


(** *** The post-processing in the words of the specification *)

#[global] Instance fval_eq_dec : EqDecision fval.
Proof. intros x y. unfold Decision. decide equality. apply Qc_eq_dec. Defined.




(** A rule is quiet on its inputs when it leaves every running state
    as it found it (and raises nothing). *)
Definition quiet (rule : SigState -> result SigState) : Prop :=
  forall st, rule st = Ok st.

(** ** Sample inputs *)

Module Samples.

Definition neutral_cols (macd macd_signal : fval) : gmap string fval :=
  list_to_map
    [("close", of_Z 100); ("MACD", macd); ("MACD_signal", macd_signal);
     ("KD_K", of_Z 50); ("KD_D", of_Z 50); ("RSI", of_Z 50);
     ("Williams_R", of_Z (-50)); ("ADX", of_Z 20); ("DI_plus", of_Z 20);
     ("DI_minus", of_Z 20); ("CCI", of_Z 0); ("OBV", of_Z 1000);
     ("BB_upper", of_Z 110); ("BB_lower", of_Z 90);
     ("Volume_Ratio", of_Z 100); ("ROC_5", of_Z 0)].

(** MACD[t-1] = -0.5, signal[t-1] = -0.2; MACD[t] = 0.1,
    signal[t] = 0.05; every other reading neutral. *)
Definition cross_prev : Row :=
  mkRow (Some (mkTimestamp 19723 0))
        (neutral_cols (of_frac (-5) 10) (of_frac (-2) 10)).
Definition cross_latest : Row :=
  mkRow (Some (mkTimestamp 19724 0))
        (neutral_cols (of_frac 1 10) (of_frac 5 100)).

(** One snapshot: close 99, moving averages at 100, 100.3, 101 and 95,
    ATR 1. *)
Definition level_row : Row :=
  mkRow (Some (mkTimestamp 19724 0))
        (list_to_map
           [("close", of_Z 99); ("high", of_Z 100); ("low", of_Z 98);
            ("MA5", of_Z 100); ("MA10", of_frac 1003 10);
            ("MA20", of_Z 101); ("MA60", of_Z 95); ("BB_upper", NaN);
            ("BB_lower", NaN); ("SAR", NaN); ("ATR", of_Z 1)]).

(** A stand-in for the [ta] package that returns every one of its
    columns undefined; the VWAP does not read them. *)
Definition ta_blank (df : Indicators.Frame) : result Indicators.TaColumns :=
  let c := replicate (length (Indicators.f_close df)) NaN in
  Ok (Indicators.mkTaColumns
        c c c c c c c c c c c c c c c c c c c c c c c c c c c c c).

(** Sixty one-minute bars: 58 on 2024-01-02 from 09:00 and two on
    2024-01-03, the last two with typical prices 20 and 21 and volumes
    50 and 150. *)
Definition two_days_dates : list Timestamp :=
  ((fun k => mkTimestamp 19724 (32400 + 60 * Z.of_nat k)) <$> seq 0 58)
  ++ [mkTimestamp 19725 32400; mkTimestamp 19725 32460].

Definition two_days : Indicators.Frame :=
  {| Indicators.f_date := Some two_days_dates;
     Indicators.f_high :=
       ((fun k => of_Z (11 + Z.of_nat k mod 3)) <$> seq 0 58)
       ++ [of_Z 21; of_Z 22];
     Indicators.f_low :=
       ((fun k => of_Z (9 + Z.of_nat k mod 3)) <$> seq 0 58)
       ++ [of_Z 19; of_Z 20];
     Indicators.f_close :=
       ((fun k => of_Z (10 + Z.of_nat k mod 3)) <$> seq 0 58)
       ++ [of_Z 20; of_Z 21];
     Indicators.f_volume :=
       ((fun k => of_Z (100 + Z.of_nat k)) <$> seq 0 58)
       ++ [of_Z 50; of_Z 150] |}.

(** 2024-01-01 10:00:00 UTC on a machine whose local time is UTC. *)
Definition clock_utc : Db.Clock := Db.mkClock (19723 * 86400 + 36000) 0 0.

(** 2024-01-02 04:00:00 UTC, local time eight hours behind UTC
    (2024-01-01 20:00:00 on the wall clock). *)
Definition clock_west : Db.Clock :=
  Db.mkClock (19724 * 86400 + 14400) 0 (-28800).

(** The same clock [s] seconds later. *)
Definition later (c : Db.Clock) (s : Z) : Db.Clock :=
  Db.mkClock (Db.clk_unix c + s) (Db.clk_micro c) (Db.clk_tz c).

Definition bar (date : string) (close : Z) : Db.PriceBar :=
  Db.mkPriceBar date (of_Z close) (of_Z close) (of_Z close) (of_Z close)
    (of_Z 1000).

Definition inst_in (day : Z) (total : Z) : Db.InstIn :=
  Db.mkInstIn (mkTimestamp day 0)
    (list_to_map
       [("Foreign_Investor", of_Z total); ("Investment_Trust", of_Z 0);
        ("Dealer_Self", of_Z 0); ("Dealer_Hedging", of_Z 0);
        ("Dealer_Total", of_Z 0); ("Total", of_Z total)]).

Definition inst_frame (rows : list Db.InstIn) : Db.InstFrame :=
  Db.mkInstFrame Db.required_columns rows.

(** The news of 2330 saved with the default source and lifetime. *)
Definition news_db (c : Db.Clock) : Db.Database :=
  Db.save_news_cache Db.empty_db "2330" "news" Db.source_default
    Db.expires_hours_default c.

(** Institutional rows of 2330: first 2024-01-02 alone, then a batch
    holding 2024-01-03 alone. *)
Definition inst_db_day1 : Db.Database :=
  (Db.save_institutional_data Db.empty_db "2330"
     (Some (inst_frame [inst_in 19724 500])) clock_utc).1.
Definition inst_db_day2 : Db.Database :=
  (Db.save_institutional_data inst_db_day1 "2330"
     (Some (inst_frame [inst_in 19725 700])) (later clock_utc 86400)).1.

(** A batch that holds 2024-01-03 twice, with totals 500 and then 600,
    and 2024-01-04 once. *)
Definition inst_frame_repeat : Db.InstFrame :=
  inst_frame [inst_in 19725 500; inst_in 19725 600; inst_in 19726 700].

End Samples.

(** * Further code of the modules *)

(** ** Columns read by the signal composer *)

Definition signal_columns : list string :=
  ["close"; "MACD"; "MACD_signal"; "KD_K"; "KD_D"; "RSI"; "Williams_R";
   "ADX"; "DI_plus"; "DI_minus"; "CCI"; "OBV"; "BB_upper"; "BB_lower";
   "Volume_Ratio"; "ROC_5"].

Definition has_columns (cols : list string) (r : Row) : Prop :=
  forall c, c ∈ cols -> is_Some (row_cols r !! c).

(** The exception names a column the signal composer reads. *)
Definition column_error (e : exn) : Prop :=
  exists c, e = KeyError c /\ c ∈ signal_columns.

(** One rule application: nothing, or one label with a contribution of
    at most 20 points either way. *)
Definition rule_step (labels : list string) (st st' : SigState) : Prop :=
  st' = st
  \/ exists label delta,
       st' = fire label delta st /\ label ∈ labels /\ -20 <= delta <= 20.

Definition macd_labels : list string :=
  ["MACD 金叉 (買進)"; "MACD 死叉 (賣出)"].

Definition other_labels : list string :=
  ["KD 低檔金叉 (強買)"; "KD 金叉 (買進)"; "KD 高檔死叉 (強賣)";
   "KD 死叉 (賣出)"; "RSI 超賣 (買進)"; "RSI 超買 (賣出)";
   "Williams %R 超買 (賣出)"; "Williams %R 超賣 (買進)";
   "ADX 強勢上漲趨勢"; "ADX 強勢下跌趨勢"; "CCI 超買 (賣出)";
   "CCI 超賣 (買進)"; "⚠️ OBV 頂背離 (賣出)"; "✅ OBV 底背離 (買進)";
   "突破布林上軌 (強勢/超買)"; "跌破布林下軌 (弱勢/超賣)";
   "🔥 成交量爆量 (注意)"; "短期動能強勁"; "短期動能疲弱"].

(** ** Crossover markers: [chart_plotter.detect_*_crossovers] *)

Module Chart.

(** ['c' in df.columns], read off the rows. *)
Definition has_column (df : DataFrame) (c : string) : bool :=
  forallb (fun r => bool_decide (is_Some (row_cols r !! c))) df.

Definition Mark : Type := (Timestamp * fval)%type.

(** [line_a[i-1] <= line_b[i-1] and line_a[i] > line_b[i]] *)
Definition crossed_up (a b : string) (prev cur : Row) : result bool :=
  py_and (cmp fle prev a prev b) (cmp fgt cur a cur b).

(** [line_a[i-1] >= line_b[i-1] and line_a[i] < line_b[i]] *)
Definition crossed_down (a b : string) (prev cur : Row) : result bool :=
  py_and (cmp fge prev a prev b) (cmp flt cur a cur b).

(** [(df['date'].iloc[i], df[val].iloc[i])] *)
Definition mark (val : string) (cur : Row) : result Mark :=
  d ← date_cell cur; v ← getitem cur val; mret (d, v).

(** The loop [for i in range(1, len(df))]. *)
Fixpoint detect_loop (a b val : string) (rows : list Row)
    (golden death : list Mark) : result (list Mark * list Mark) :=
  match rows with
  | prev :: ((cur :: _) as rest) =>
      up ← crossed_up a b prev cur;
      golden' ← (if up : bool
                 then m ← mark val cur; mret (golden ++ [m])
                 else mret golden);
      down ← crossed_down a b prev cur;
      death' ← (if down : bool
                then m ← mark val cur; mret (death ++ [m])
                else mret death);
      detect_loop a b val rest golden' death'
  | _ => mret (golden, death)
  end.

Definition detect_crossovers (a b val : string) (df : DataFrame)
    : result (list Mark * list Mark) :=
  if has_column df a && has_column df b
  then detect_loop a b val df [] []
  else mret ([], []).

Definition detect_ma_crossovers : DataFrame -> result (list Mark * list Mark) :=
  detect_crossovers "MA5" "MA20" "close".
Definition detect_kd_crossovers : DataFrame -> result (list Mark * list Mark) :=
  detect_crossovers "KD_K" "KD_D" "KD_K".
Definition detect_macd_crossovers
    : DataFrame -> result (list Mark * list Mark) :=
  detect_crossovers "MACD" "MACD_signal" "MACD".

End Chart.

(** ** Levels against the current price *)

Definition below (cp : fval) (l : Level) : Prop :=
  flt (lv_price l) cp = true.



(** ** Undefined readings *)

(** The indicator columns the signal rules compare against thresholds
    or against each other. *)
Definition warmup_columns : list string :=
  ["MACD"; "KD_K"; "RSI"; "Williams_R"; "ADX"; "CCI"; "BB_upper";
   "BB_lower"; "Volume_Ratio"; "ROC_5"].

Definition nan_in (r : Row) (c : string) : Prop := row_cols r !! c = Some NaN.


(** ** SQLite cache: the query log and [cleanup_old_data] *)

Module Housekeeping.
Import Db.

Record LogRow : Type := mkLogRow {
  ql_id : Z;
  ql_symbol : string;
  ql_query_type : string;
  ql_created_at : string
}.

(** The database with its fourth table, [query_logs]. *)
Record Store : Type := mkStore {
  st_db : Database;
  st_query_logs : Table LogRow
}.

(** [dt - timedelta(days=d)] *)
Definition sub_days (dt : datetime) (d : Z) : datetime :=
  {| dt_secs := dt_secs dt - d * 86400; dt_micro := dt_micro dt |}.

(** [dt.strftime('%Y-%m-%d')], for the years from 1000 on (earlier
    years are printed without leading zeros on some platforms). *)
Definition strftime_ymd (dt : datetime) : string :=
  Calendar.fmt_date (dt_secs dt / 86400).

(** Text comparison [a < b] of SQLite. *)
Definition text_lt (a b : string) : Prop := String.ltb a b = true.

#[global] Instance text_lt_dec a b : Decision (text_lt a b).
Proof. unfold text_lt. apply _. Defined.

(** The four [DELETE] statements.  The clock is read three times:
    by the first [datetime.now()], by SQLite for [datetime('now')] and
    by the second [datetime.now()].  When a cutoff cannot be computed
    the handler rolls back and nothing is changed. *)
Definition cleanup_old_data (s : Store) (days : Z)
    (now_date now_sql now_log : Clock) : Store :=
  let cutoff := sub_days (datetime_now now_date) days in
  let cutoff' := sub_days (datetime_now now_log) days in
  if representable cutoff && representable cutoff' then
    let cutoff_date := strftime_ymd cutoff in
    let cutoff_datetime := isoformat cutoff' in
    let db := st_db s in
    {| st_db :=
         {| stock_prices :=
              sql_delete (fun r => text_lt (sp_date r) cutoff_date)
                         (stock_prices db);
            institutional_trades :=
              sql_delete (fun r => text_lt (it_date r) cutoff_date)
                         (institutional_trades db);
            news_cache :=
              sql_delete
                (fun r => text_lt (nc_expires_at r) (sqlite_now now_sql))
                (news_cache db) |};
       st_query_logs :=
         sql_delete (fun r => text_lt (ql_created_at r) cutoff_datetime)
                    (st_query_logs s) |}
  else s.

End Housekeeping.

(** ** More sample inputs *)

Module MoreSamples.

Definition plain_row (day close : Z) (obv : fval) : Row :=
  mkRow (Some (mkTimestamp day 0))
        (<["close" := of_Z close]> (<["OBV" := obv]>
           (Samples.neutral_cols (of_Z 0) (of_Z 0)))).

(** Five rising closes; OBV not yet defined on the last row. *)
Definition rising_obv_nan : DataFrame :=
  [plain_row 19720 10 (of_Z 100); plain_row 19721 11 (of_Z 110);
   plain_row 19722 12 (of_Z 120); plain_row 19723 13 (of_Z 130);
   plain_row 19724 14 NaN].

(** Three bars whose MACD line crosses its signal line upwards on the
    second bar and downwards on the third. *)
Definition macd_row (day : Z) (macd macd_signal : Z) : Row :=
  mkRow (Some (mkTimestamp day 0))
        (Samples.neutral_cols (of_Z macd) (of_Z macd_signal)).

Definition zigzag : DataFrame :=
  [macd_row 19720 (-1) 0; macd_row 19721 1 0; macd_row 19722 (-1) 0].

(** A row on which no indicator is defined yet. *)
Definition warmup_row (day close : Z) : Row :=
  mkRow (Some (mkTimestamp day 0))
        (list_to_map
           [("close", of_Z close); ("MACD", NaN); ("MACD_signal", NaN);
            ("KD_K", NaN); ("KD_D", NaN); ("RSI", NaN);
            ("Williams_R", NaN); ("ADX", NaN); ("DI_plus", NaN);
            ("DI_minus", NaN); ("CCI", NaN); ("OBV", of_Z 1000);
            ("BB_upper", NaN); ("BB_lower", NaN); ("Volume_Ratio", NaN);
            ("ROC_5", NaN)]).

(** The float nearest to 0.05. *)
Definition five_cents : Qc :=
  Q2Qc (3602879701896397 # 72057594037927936).

End MoreSamples.

(** * Properties *)

(** ** The error monad *)

Lemma bind_Ok {A B} (m : result A) (f : A -> result B) (b : B) :
  m ≫= f = Ok b <-> exists a, m = Ok a /\ f a = Ok b.
Proof.
  destruct m as [a|e]; simpl; split.
  - intros H. exists a. split; [reflexivity|exact H].
  - intros (a' & Ha & Hf). injection Ha as ->. exact Hf.
  - discriminate.
  - intros (a' & Ha & _). discriminate.
Qed.

Lemma getitem_Ok (r : Row) (c : string) (v : fval) :
  getitem r c = Ok v <-> row_cols r !! c = Some v.
Proof.
  unfold getitem. destruct (row_cols r !! c); split; congruence.
Qed.

(** ** Signal composer *)

Section Signals.

Lemma clamp_strength_bounds (score : Z) :
  -100 <= clamp_strength score <= 100.
Proof. unfold clamp_strength. lia. Qed.

(** The thresholds lie inside the clamping interval, so clamping does
    not move a score across one. *)
Lemma classify_clamp (score : Z) :
  classify (clamp_strength score) = classify score.
Proof.
  unfold classify, clamp_strength.
  repeat match goal with
         | |- context [?a <=? ?b] => destruct (Z.leb_spec a b)
         end; try reflexivity; lia.
Qed.

Lemma classify_spec (s : Z) :
  (30 <= s <-> classify s = STRONG_BUY) /\
  (15 <= s < 30 <-> classify s = BUY) /\
  (s <= -30 <-> classify s = STRONG_SELL) /\
  (-30 < s <= -15 <-> classify s = SELL) /\
  (-15 < s < 15 <-> classify s = HOLD).
Proof.
  unfold classify.
  repeat match goal with
         | |- context [?a <=? ?b] => destruct (Z.leb_spec a b)
         end; repeat split; intros; try discriminate; try reflexivity; lia.
Qed.

(** A report, when there is one, carries the clamped and the
    classified raw score. *)
Lemma report_inv (df : DataFrame) (r : SignalReport) :
  get_daytrading_signals df = Ok (Some r) ->
  exists score, strength r = clamp_strength score
                /\ recommendation r = classify score.
Proof.
  unfold get_daytrading_signals.
  destruct (_ || _); [discriminate|].
  intros H.
  repeat (apply bind_Ok in H as (? & _ & H)).
  injection H as <-. eexists. split; reflexivity.
Qed.

End Signals.

(** C5. An input of fewer than two snapshots (the empty one included)
    yields the explicit no-signal result [None]; nothing is raised. *)
Theorem get_daytrading_signals_short (df : DataFrame) :
  (length df < 2)%nat -> get_daytrading_signals df = Ok None.
Proof.
  intros Hlen. unfold get_daytrading_signals.
  rewrite (bool_decide_eq_true_2 (length df < 2)%nat Hlen).
  rewrite orb_true_r. reflexivity.
Qed.

Lemma get_daytrading_signals_short_witness :
  (length [mkRow None ∅] < 2)%nat
  /\ get_daytrading_signals [mkRow None ∅] = Ok None.
Proof.
  split; [simpl; lia|].
  apply get_daytrading_signals_short. simpl; lia.
Defined.

(** C10. Whenever a report is produced its strength lies in
    [-100, 100] and its recommendation is the threshold class of that
    reported strength. *)
Theorem report_strength_consistent (df : DataFrame) (r : SignalReport) :
  get_daytrading_signals df = Ok (Some r) ->
  -100 <= strength r <= 100 /\
  recommendation r = classify (strength r) /\
  (30 <= strength r <-> recommendation r = STRONG_BUY) /\
  (15 <= strength r < 30 <-> recommendation r = BUY) /\
  (strength r <= -30 <-> recommendation r = STRONG_SELL) /\
  (-30 < strength r <= -15 <-> recommendation r = SELL) /\
  (-15 < strength r < 15 <-> recommendation r = HOLD).
Proof.
  intros H. destruct (report_inv df r H) as (score & Hs & Hr).
  assert (Hc : recommendation r = classify (strength r))
    by (rewrite Hr, Hs; symmetry; apply classify_clamp).
  split; [rewrite Hs; apply clamp_strength_bounds|].
  split; [exact Hc|].
  rewrite Hc. apply classify_spec.
Qed.

(** ** Float comparisons against differences *)

Lemma of_Z_0 : of_Z 0 = Fin 0%Qc.
Proof. unfold of_Z. rewrite Z2Qc_inj_0. reflexivity. Qed.

Lemma Qc_sub_pos (a b : Qc) : (0 < a + - b)%Qc <-> (b < a)%Qc.
Proof.
  rewrite (Qcplus_lt_mono_r b a (- b)%Qc), Qcplus_opp_r. reflexivity.
Qed.

Lemma Qc_sub_nonpos (a b : Qc) : (a + - b <= 0)%Qc <-> (a <= b)%Qc.
Proof.
  rewrite (Qcplus_le_mono_r a b (- b)%Qc), Qcplus_opp_r. reflexivity.
Qed.

Lemma fsub_pos_gt (a b : fval) :
  fgt (fsub a b) (of_Z 0) = true -> fgt a b = true.
Proof.
  rewrite of_Z_0. unfold fgt, fsub.
  destruct a, b; simpl; try discriminate; try reflexivity.
  intros H. apply bool_decide_eq_true in H.
  apply bool_decide_eq_true. apply Qc_sub_pos. exact H.
Qed.

Lemma fsub_nonpos_le (a b : fval) :
  fle (fsub a b) (of_Z 0) = true -> fle a b = true.
Proof.
  rewrite of_Z_0. unfold fsub.
  destruct a, b; simpl; try discriminate; try reflexivity.
  intros H. apply bool_decide_eq_true in H.
  apply bool_decide_eq_true. apply Qc_sub_nonpos. exact H.
Qed.

(** ** A lone MACD golden cross *)

Lemma df_empty_with_column (df : DataFrame) (r : Row) (c : string) (v : fval) :
  r ∈ df -> row_cols r !! c = Some v -> df_empty df = false.
Proof.
  intros Hin Hc. unfold df_empty.
  destruct (forallb row_empty df) eqn:E; [|reflexivity].
  rewrite forallb_forall in E.
  apply list_elem_of_In in Hin. specialize (E r Hin).
  unfold row_empty in E. apply andb_true_iff in E as [_ E].
  apply bool_decide_eq_true in E. rewrite E in Hc.
  rewrite lookup_empty in Hc. discriminate.
Qed.

Lemma iloc_neg_last (front : DataFrame) (prev latest : Row) :
  iloc_neg (front ++ [prev; latest]) 1 = Ok latest
  /\ iloc_neg (front ++ [prev; latest]) 2 = Ok prev.
Proof.
  unfold iloc_neg. rewrite rev_app_distr. simpl. split; reflexivity.
Qed.

Lemma rule_macd_golden (latest prev : Row) (m s pm ps : fval) (st : SigState) :
  row_cols latest !! "MACD" = Some m ->
  row_cols latest !! "MACD_signal" = Some s ->
  row_cols prev !! "MACD" = Some pm ->
  row_cols prev !! "MACD_signal" = Some ps ->
  fgt m s = true -> fle pm ps = true ->
  rule_macd latest prev st = Ok (fire "MACD 金叉 (買進)" 15 st).
Proof.
  intros Hm Hs Hpm Hps Hgt Hle.
  unfold rule_macd, py_and, cmp, getitem.
  rewrite Hm, Hs, Hpm, Hps. simpl. rewrite Hgt. simpl. rewrite Hle.
  reflexivity.
Qed.

Lemma quiet_bollinger_close (latest : Row) :
  quiet (rule_bollinger latest) -> exists c, getitem latest "close" = Ok c.
Proof.
  intros Hq. specialize (Hq (mkSigState [] 0)).
  unfold rule_bollinger in Hq.
  apply bind_Ok in Hq as (above & Hcmp & _).
  unfold cmp in Hcmp. apply bind_Ok in Hcmp as (c & Hc & _).
  exists c. exact Hc.
Qed.

(** C3. When MACD minus signal is at or below zero on the previous
    snapshot and above zero on the latest one, and no other scoring
    rule fires, the report carries score +15, recommendation BUY and
    the golden cross as its only trigger. *)
Theorem macd_golden_cross_alone
    (front : DataFrame) (prev latest : Row) (m s pm ps : fval) :
  row_cols latest !! "MACD" = Some m ->
  row_cols latest !! "MACD_signal" = Some s ->
  row_cols prev !! "MACD" = Some pm ->
  row_cols prev !! "MACD_signal" = Some ps ->
  fle (fsub pm ps) (of_Z 0) = true ->
  fgt (fsub m s) (of_Z 0) = true ->
  quiet (rule_kd latest prev) ->
  quiet (rule_rsi latest) ->
  quiet (rule_williams latest) ->
  quiet (rule_adx latest) ->
  quiet (rule_cci latest) ->
  quiet (rule_obv (front ++ [prev; latest]) latest) ->
  quiet (rule_bollinger latest) ->
  quiet (rule_volume latest) ->
  quiet (rule_roc latest) ->
  exists r,
    get_daytrading_signals (front ++ [prev; latest]) = Ok (Some r)
    /\ strength r = 15
    /\ recommendation r = BUY
    /\ signals r = ["MACD 金叉 (買進)"].
Proof.
  intros Hm Hs Hpm Hps Hprev Hnow Hkd Hrsi Hwil Hadx Hcci Hobv Hbb Hvol Hroc.
  destruct (quiet_bollinger_close latest Hbb) as (c & Hc).
  destruct (iloc_neg_last front prev latest) as (Hl1 & Hl2).
  unfold get_daytrading_signals.
  rewrite (df_empty_with_column _ latest "MACD" m)
    by (try exact Hm; set_solver).
  rewrite bool_decide_eq_false_2
    by (rewrite length_app; simpl; lia).
  simpl orb. cbv iota.
  rewrite Hl1; simpl. rewrite Hl2; simpl. rewrite Hc; simpl.
  rewrite (rule_macd_golden latest prev m s pm ps _ Hm Hs Hpm Hps
             (fsub_pos_gt _ _ Hnow) (fsub_nonpos_le _ _ Hprev)); simpl.
  rewrite Hkd; simpl. rewrite Hrsi; simpl. rewrite Hwil; simpl.
  rewrite Hadx; simpl. rewrite Hcci; simpl. rewrite Hobv; simpl.
  rewrite Hbb; simpl. rewrite Hvol; simpl. rewrite Hroc; simpl.
  eexists. split; [reflexivity|]. simpl. repeat split.
Qed.

Lemma macd_golden_cross_alone_witness :
  exists r,
    get_daytrading_signals ([] ++ [Samples.cross_prev; Samples.cross_latest])
      = Ok (Some r)
    /\ strength r = 15
    /\ recommendation r = BUY
    /\ signals r = ["MACD 金叉 (買進)"].
Proof.
  apply (macd_golden_cross_alone [] Samples.cross_prev Samples.cross_latest
           (of_frac 1 10) (of_frac 5 100) (of_frac (-5) 10) (of_frac (-2) 10));
    try reflexivity; intros st; vm_compute; reflexivity.
Defined.

Lemma report_strength_consistent_witness :
  exists r,
    get_daytrading_signals [Samples.cross_prev; Samples.cross_latest]
      = Ok (Some r)
    /\ -100 <= strength r <= 100
    /\ recommendation r = classify (strength r).
Proof.
  eexists. split; [vm_compute; reflexivity|].
  match goal with
  | |- context [strength ?r] =>
      destruct (report_strength_consistent
                  [Samples.cross_prev; Samples.cross_latest] r
                  ltac:(vm_compute; reflexivity)) as (Hb & Hc & _)
  end.
  split; [exact Hb|exact Hc].
Defined.

(** ** Stop-loss helper *)

Section Rounding.

Lemma round_half_even_close (q : Q) :
  (Qabs (inject_Z (round_half_even q) - q) <= 1 # 2)%Q.
Proof.
  destruct q as [n d]. unfold round_half_even. simpl Qnum. simpl Qden.
  pose proof (Z.div_mod n (Z.pos d) ltac:(lia)) as Hdm.
  pose proof (Z.mod_pos_bound n (Z.pos d) ltac:(lia)) as Hb.
  set (fl := n / Z.pos d) in *. set (r := n mod Z.pos d) in *.
  assert (Hcase : forall z : Z, 2 * Z.abs (z * Z.pos d - n) <= Z.pos d ->
            (Qabs (inject_Z z - (n # d)) <= 1 # 2)%Q).
  { intros z Hz. unfold Qle, Qabs, Qminus, Qplus, Qopp, inject_Z. simpl.
    rewrite Z.mul_1_r. lia. }
  destruct (Z.ltb_spec (2 * r) (Z.pos d)); [apply Hcase; lia|].
  destruct (Z.ltb_spec (Z.pos d) (2 * r)); [apply Hcase; lia|].
  destruct (Z.even fl); apply Hcase; lia.
Qed.

(** Rounding to two decimals moves a value by at most half a cent. *)
Lemma qround2_close (a : Qc) :
  (Qabs (this (qround2 a) - this a) <= 1 # 200)%Q.
Proof.
  unfold qround2. simpl this. rewrite Qred_correct.
  pose proof (round_half_even_close (this a * (100 # 1))) as H.
  set (z := round_half_even (this a * (100 # 1))) in *.
  assert (E : ((z # 100) - this a
               == (inject_Z z - this a * (100 # 1)) * (1 # 100))%Q).
  { destruct (this a) as [m d].
    unfold Qeq, Qminus, Qplus, Qmult, Qopp, inject_Z. simpl.
    rewrite !Pos2Z.inj_mul. ring. }
  rewrite E, Qabs_Qmult.
  change (1 # 200)%Q with ((1 # 2) * (1 # 100))%Q.
  apply Qmult_le_compat_r; [exact H|]. discriminate.
Qed.

(** A whole number of cents is left as it is. *)
Lemma qround2_cents (n : Z) : qround2 (Q2Qc (n # 100)) = Q2Qc (n # 100).
Proof.
  unfold qround2. apply Qc_is_canon. simpl this. rewrite !Qred_correct.
  set (q := Qred (n # 100)).
  assert (Hq : (q == n # 100)%Q) by apply Qred_correct.
  assert (Hz : round_half_even (q * (100 # 1)) = n).
  { unfold round_half_even. destruct q as [m d]. simpl Qnum. simpl Qden.
    unfold Qeq in Hq. simpl in Hq.
    assert (Hm : m * 100 = n * Z.pos (d * 1)) by lia.
    rewrite Hm, Z.div_mul, Z.mod_mul by lia.
    simpl. reflexivity. }
  rewrite Hz. symmetry. exact Hq.
Qed.

End Rounding.

(** ** Python floats: rounding *)

Section Binary64Facts.
Import Binary64.

Lemma pow2_pos (e : Z) : (0 < pow2 e)%Q.
Proof. apply Qpower_0_lt. reflexivity. Qed.

Lemma pow2_add (a b : Z) : (pow2 (a + b) == pow2 a * pow2 b)%Q.
Proof. apply Qpower_plus. discriminate. Qed.

Lemma pow2_le (a b : Z) : a <= b -> (pow2 a <= pow2 b)%Q.
Proof. intros H. apply Qpower_le_compat_l; [exact H|discriminate]. Qed.

Lemma pow2_le_inv (a b : Z) : (pow2 a <= pow2 b)%Q -> a <= b.
Proof. intros H. eapply Qpower_le_compat_l_inv; [exact H|reflexivity]. Qed.

Lemma pow2_nonneg (e : Z) : 0 <= e -> (pow2 e == inject_Z (2 ^ e))%Q.
Proof.
  intros H. unfold pow2. rewrite Zpower_Qpower by exact H. reflexivity.
Qed.

Lemma pow2_cancel (e : Z) : (pow2 (- e) * pow2 e == 1)%Q.
Proof. rewrite <- pow2_add. replace (- e + e) with 0 by lia. reflexivity. Qed.

Lemma pow2_half (e : Z) : ((1 # 2) * pow2 e == pow2 (e - 1))%Q.
Proof.
  replace (e - 1) with (-1 + e) by lia. rewrite pow2_add. reflexivity.
Qed.

(** [ilog2] does not overshoot. *)
Lemma ilog2_le (n d : positive) : (pow2 (ilog2 n d) <= Z.pos n # d)%Q.
Proof.
  unfold ilog2.
  pose proof (Z.log2_spec (Z.pos n) ltac:(lia)) as [Hn _].
  pose proof (Z.log2_spec (Z.pos d) ltac:(lia)) as [_ Hd].
  pose proof (Z.log2_nonneg (Z.pos n)) as Han.
  pose proof (Z.log2_nonneg (Z.pos d)) as Hbn.
  set (a := Z.log2 (Z.pos n)) in *. set (b := Z.log2 (Z.pos d)) in *.
  assert (Hpos : forall e, 0 <= e -> Z.pos d * 2 ^ e <= Z.pos n ->
                   (pow2 e <= Z.pos n # d)%Q).
  { intros e He H. rewrite pow2_nonneg by exact He.
    unfold Qle, inject_Z. simpl. lia. }
  assert (Hneg : forall e, e < 0 -> Z.pos d <= Z.pos n * 2 ^ (- e) ->
                   (pow2 e <= Z.pos n # d)%Q).
  { intros e He H.
    apply (Qmult_le_r _ _ (pow2 (- e))); [apply pow2_pos|].
    rewrite <- pow2_add. replace (e + - e) with 0 by lia.
    change (pow2 0) with 1%Q.
    rewrite (pow2_nonneg (- e)) by lia.
    unfold Qle, inject_Z, Qmult. simpl. lia. }
  destruct (Z.leb_spec 0 (a - b)) as [He0|He0].
  - destruct (Z.leb_spec (Z.pos d * 2 ^ (a - b)) (Z.pos n)) as [Hfit|Hfit].
    + apply Hpos; assumption.
    + destruct (Z.eq_dec (a - b) 0) as [E0|E0].
      * apply Hneg; [lia|]. replace (- (a - b - 1)) with 1 by lia.
        rewrite E0 in Hfit. 
        replace (Z.succ b) with (b + 1) in Hd by lia.
        rewrite Z.pow_add_r in Hd by lia.
        assert (Hab : a = b) by lia. rewrite Hab in Hn.
        change (2 ^ 1) with 2 in *. lia.
      * apply Hpos; [lia|].
        replace (Z.succ b) with (b + 1) in Hd by lia.
        assert (E : 2 ^ a = 2 ^ (a - b - 1) * 2 ^ (b + 1)).
        { rewrite <- Z.pow_add_r by lia. f_equal. lia. }
        assert (0 < 2 ^ (a - b - 1)) by (apply Z.pow_pos_nonneg; lia).
        nia.
  - destruct (Z.leb_spec (Z.pos d) (Z.pos n * 2 ^ (- (a - b)))) as [Hfit|Hfit].
    + apply Hneg; assumption.
    + apply Hneg; [lia|].
      replace (Z.succ b) with (b + 1) in Hd by lia.
      assert (E : 2 ^ (b + 1) = 2 ^ a * 2 ^ (- (a - b - 1))).
      { rewrite <- Z.pow_add_r by lia. f_equal. lia. }
      assert (0 < 2 ^ (- (a - b - 1))) by (apply Z.pow_pos_nonneg; lia).
      nia.
Qed.

Lemma Qabs_pos_num (n d : positive) : (Qabs (Z.pos n # d) == Z.pos n # d)%Q.
Proof. reflexivity. Qed.

Lemma Qabs_neg_num (n d : positive) : (Qabs (Z.neg n # d) == Z.pos n # d)%Q.
Proof. reflexivity. Qed.

Lemma this_Q2Qc (z : Q) : this (Q2Qc z) = Qred z.
Proof. reflexivity. Qed.

(** A rational of magnitude at most [2^B] is rounded to a finite float
    at most [2^(B-53)] away. *)
Lemma round_near (B : Z) (q : Q) :
  -1022 <= B <= 1000 ->
  (Qabs q <= pow2 B)%Q ->
  exists v : Qc, round q = Fin v /\ (Qabs (this v - q) <= pow2 (B - 53))%Q.
Proof.
  intros HB Hq. unfold round.
  destruct q as [num d]. simpl Qnum. simpl Qden.
  assert (Hgen : forall n : positive,
            (Qabs (num # d) == Z.pos n # d)%Q ->
            exists v : Qc,
              (let e := ulp_exp n d in
               let m := round_half_even ((num # d) * pow2 (- e)) in
               if (972 <=? e) || ((e =? 971) && (Z.abs m =? 2 ^ 53))
               then (if 0 <? num then PInf else NInf)
               else Fin (Q2Qc (inject_Z m * pow2 e))) = Fin v
              /\ (Qabs (this v - (num # d)) <= pow2 (B - 53))%Q).
  { intros n Habs. cbv zeta.
    assert (He : ulp_exp n d <= B - 52).
    { unfold ulp_exp. apply Z.sub_le_mono_r. apply Z.max_lub; [|lia].
      apply pow2_le_inv. eapply Qle_trans; [apply ilog2_le|].
      rewrite <- Habs. exact Hq. }
    set (e := ulp_exp n d) in *.
    destruct (Z.leb_spec 972 e); [lia|].
    destruct (Z.eqb_spec e 971); [lia|]. cbn [orb andb].
    eexists. split; [reflexivity|].
    rewrite this_Q2Qc, Qred_correct.
    pose proof (round_half_even_close ((num # d) * pow2 (- e))) as Hm.
    set (m := round_half_even ((num # d) * pow2 (- e))) in *.
    assert (E : (inject_Z m * pow2 e - (num # d)
                 == (inject_Z m - (num # d) * pow2 (- e)) * pow2 e)%Q).
    { pose proof (pow2_cancel e) as Hc.
      transitivity (inject_Z m * pow2 e
                    - (num # d) * (pow2 (- e) * pow2 e))%Q;
        [rewrite Hc; ring|ring]. }
    rewrite E, Qabs_Qmult.
    rewrite (Qabs_pos (pow2 e)) by (apply Qlt_le_weak, pow2_pos).
    eapply Qle_trans.
    { apply Qmult_le_compat_r; [exact Hm|apply Qlt_le_weak, pow2_pos]. }
    rewrite pow2_half. apply pow2_le. lia. }
  destruct num as [|n|n].
  - exists 0%Qc. split; [reflexivity|].
    simpl this. apply Qlt_le_weak.
    assert (E : (Qabs (0 - (0 # d)) == 0)%Q) by reflexivity.
    rewrite E. apply pow2_pos.
  - apply Hgen. reflexivity.
  - apply Hgen. reflexivity.
Qed.

End Binary64Facts.

(** ** Stop-loss helper *)

Section StopLossBounds.
Import Binary64.

Ltac pow2_num :=
  repeat match goal with
         | |- context [pow2 ?e] =>
             let v := eval vm_compute in (pow2 e) in
             change (pow2 e) with v
         | H : context [pow2 ?e] |- _ =>
             let v := eval vm_compute in (pow2 e) in
             change (pow2 e) with v in H
         end.

Ltac unabs :=
  repeat match goal with
         | H : (Qabs _ <= _)%Q |- _ => apply Qabs_Qle_condition in H
         | |- (Qabs _ <= _)%Q => apply Qabs_Qle_condition
         end.

Lemma Qabs_mul_le (x k X K : Q) :
  (Qabs x <= X)%Q -> (Qabs k <= K)%Q -> (Qabs (x * k) <= X * K)%Q.
Proof.
  intros Hx Hk. rewrite Qabs_Qmult.
  pose proof (Qabs_nonneg x) as H0. pose proof (Qabs_nonneg k) as H1.
  revert Hx Hk H0 H1. generalize (Qabs x) (Qabs k). intros u w ? ? ? ?.
  nra.
Qed.

Lemma mul_between (x k X K : Q) :
  (- X <= x <= X)%Q -> (- K <= k <= K)%Q ->
  (- (X * K) <= x * k <= X * K)%Q.
Proof.
  intros Hx Hk. apply Qabs_Qle_condition.
  apply Qabs_mul_le; apply Qabs_Qle_condition; assumption.
Qed.

Lemma round2_near (B : Z) (v : Qc) :
  -1022 <= B <= 1000 -> (Qabs (this v) + (1 # 200) <= pow2 B)%Q ->
  near ((1 # 200) + pow2 (B - 53)) (round2 (Fin v)) (this v).
Proof.
  intros HB Hv. unfold round2.
  pose proof (qround2_close v) as Hc.
  pose proof (Qle_Qabs (this v)) as Hp.
  pose proof (Qle_Qabs (- this v)) as Hm. rewrite Qabs_opp in Hm.
  destruct (round_near B (this (qround2 v)) HB) as (u & Hu & Hclose).
  { unabs. lra. }
  exists u. split; [exact Hu|].
  unabs. lra.
Qed.

Variables p a k : Qc.
Hypothesis Hp : (Qabs (this p) <= 1048576)%Q.
Hypothesis Ha : (Qabs (this a) <= 1048576)%Q.
Hypothesis Hk : (Qabs (this k) <= 1024)%Q.

Ltac rounded B q v E H :=
  destruct (round_near B q ltac:(lia)) as (v & E & H);
  [pow2_num; unabs; try lra|pow2_num; unabs].

Ltac rounded2 B u v E H :=
  destruct (round2_near B u ltac:(lia)) as (v & E & H);
  [pow2_num;
   let Hp := fresh in let Hm := fresh in
   pose proof (Qle_Qabs (this u)) as Hp;
   pose proof (Qle_Qabs (- this u)) as Hm; rewrite Qabs_opp in Hm;
   apply Qabs_case; intros; lra
  |pow2_num; unabs].

Lemma stop_loss_bounds :
  let r := calculate_stop_loss_take_profit (Fin p) (Fin a) (Fin k) in
  within_a_cent (stop_loss r) (this p - 2 * this a)
  /\ within_a_cent (take_profit r) (this p + 2 * this a * this k)
  /\ within_a_cent (conservative_stop r) (this p - (3 # 2) * this a)
  /\ within_a_cent (aggressive_stop r) (this p - (5 # 2) * this a)
  /\ within_a_cent (risk_amount r) (2 * this a)
  /\ within_a_cent (reward_amount r) (2 * this a * this k).
Proof.
  cbv zeta. unfold calculate_stop_loss_take_profit.
  cbn [stop_loss take_profit conservative_stop aggressive_stop risk_amount
       reward_amount].
  unfold within_a_cent, near.
  unabs.
  unfold add, sub, mul, lift2, of_Z, of_frac.
  change (this (Qc_of_Z 2)) with (2 # 1)%Q.
  change (this (Q2Qc (3 # 2))) with (3 # 2)%Q.
  change (this (Q2Qc (5 # 2))) with (5 # 2)%Q.
  (* atr * 2, then price - atr * 2 *)
  rounded 21 (this a * (2 # 1))%Q v1 E1 H1. rewrite !E1. cbv beta iota.
  rounded 22 (this p - this v1)%Q v2 E2 H2. rewrite !E2. cbv beta iota.
  (* atr * 2 * ratio, then price + atr * 2 * ratio *)
  assert (B4 : (- (4194304 * 1024) <= this v1 * this k
                <= 4194304 * 1024)%Q).
  { apply mul_between; [lra|exact Hk]. }
  assert (D4 : (- ((1 # 4294967296) * 1024)
                <= (this v1 - this a * (2 # 1)) * this k
                <= (1 # 4294967296) * 1024)%Q).
  { apply mul_between; [lra|exact Hk]. }
  rounded 32 (this v1 * this k)%Q v4 E4 H4. rewrite !E4. cbv beta iota.
  rounded 33 (this p + this v4)%Q v5 E5 H5. rewrite !E5. cbv beta iota.
  (* atr * 1.5 and atr * 2.5, then the two stops *)
  rounded 21 (this a * (3 # 2))%Q v7 E7 H7. rewrite !E7. cbv beta iota.
  rounded 22 (this a * (5 # 2))%Q v9 E9 H9. rewrite !E9. cbv beta iota.
  rounded 22 (this p - this v7)%Q v8 E8 H8. rewrite !E8. cbv beta iota.
  rounded 23 (this p - this v9)%Q v10 E10 H10. rewrite !E10.
  cbv beta iota.
  (* risk and reward *)
  rounded 23 (this p - this v2)%Q v3 E3 H3. rewrite !E3. cbv beta iota.
  rounded 34 (this v5 - this p)%Q v6 E6 H6. rewrite !E6. cbv beta iota.
  (* the six roundings to cents *)
  rounded2 23 v2 s E H. rewrite E.
  rounded2 34 v5 s5 E' H'. rewrite E'.
  rounded2 23 v8 s8 E8' H8'. rewrite E8'.
  rounded2 24 v10 s10 E10' H10'. rewrite E10'.
  rounded2 24 v3 s3 E3' H3'. rewrite E3'.
  rounded2 35 v6 s6 E6' H6'. rewrite E6'.
  assert (Q4 : ((this v1 - this a * (2 # 1)) * this k
                == this v1 * this k - 2 * this a * this k)%Q) by ring.
  rewrite Q4 in D4. clear Q4.
  set (vk := (this v1 * this k)%Q) in *.
  set (ak := (2 * this a * this k)%Q) in *.
  clearbody vk ak.
  repeat split; eexists; (split; [reflexivity|]); unabs; lra.
Qed.

End StopLossBounds.

Lemma fin_value_inj (q : Q) (x y : fval) :
  fin_value x = Some q -> fin_value y = Some q -> x = y.
Proof.
  destruct x as [| | |u], y as [| | |w]; simpl; try discriminate.
  intros Hx Hy. f_equal. apply Qc_is_canon.
  injection Hx as ->. injection Hy as Hy. rewrite Hy. reflexivity.
Qed.

(** Two closed floats are equal when they evaluate to one value. *)
Ltac float_eq :=
  match goal with
  | |- _ = ?y =>
      let q := eval vm_compute in (fin_value y) in
      match q with
      | Some ?v => apply (fin_value_inj v); vm_compute; reflexivity
      | None => vm_compute; reflexivity
      end
  end.

(** [round(x, 2)], when finite, is a whole number of cents. *)
Lemma in_cents_round2 (x : fval) (q : Q) :
  within_a_cent (Binary64.round2 x) q -> in_cents (Binary64.round2 x) q.
Proof.
  intros H. split; [exact H|].
  destruct H as (v & E & _). destruct x as [| | |u]; try discriminate E.
  unfold Binary64.round2, qround2. eexists. reflexivity.
Qed.

(** C9. For a finite price and ATR of magnitude at most 2^20 and a
    finite ratio of magnitude at most 2^10 the helper returns finite
    numbers that stand for whole cents and are within a cent of
    price - 2 ATR (stop loss),
    price + 2 ATR ratio (take profit), price - 1.5 ATR (conservative
    stop), price - 2.5 ATR (aggressive stop), 2 ATR (risk) and
    2 ATR ratio (reward), and returns the ratio itself; the ratio
    defaults to 2; and price 100 with ATR 2 and ratio 2 gives exactly
    96, 108, 97, 95, 4 and 8. *)
Theorem stop_loss_take_profit_formulas (p a k : Qc) :
  (Qabs (this p) <= 1048576)%Q ->
  (Qabs (this a) <= 1048576)%Q ->
  (Qabs (this k) <= 1024)%Q ->
  (in_cents
     (stop_loss (calculate_stop_loss_take_profit (Fin p) (Fin a) (Fin k)))
     (this p - 2 * this a)
   /\ in_cents
        (take_profit
           (calculate_stop_loss_take_profit (Fin p) (Fin a) (Fin k)))
        (this p + 2 * this a * this k)
   /\ in_cents
        (conservative_stop
           (calculate_stop_loss_take_profit (Fin p) (Fin a) (Fin k)))
        (this p - (3 # 2) * this a)
   /\ in_cents
        (aggressive_stop
           (calculate_stop_loss_take_profit (Fin p) (Fin a) (Fin k)))
        (this p - (5 # 2) * this a)
   /\ in_cents
        (risk_amount
           (calculate_stop_loss_take_profit (Fin p) (Fin a) (Fin k)))
        (2 * this a)
   /\ in_cents
        (reward_amount
           (calculate_stop_loss_take_profit (Fin p) (Fin a) (Fin k)))
        (2 * this a * this k)
   /\ risk_reward_ratio
        (calculate_stop_loss_take_profit (Fin p) (Fin a) (Fin k))
      = Fin k)
  /\ (forall x y : fval,
         calculate_stop_loss_take_profit_default x y
         = calculate_stop_loss_take_profit x y (of_Z 2))
  /\ calculate_stop_loss_take_profit (of_Z 100) (of_Z 2) (of_Z 2)
     = {| stop_loss := of_Z 96; take_profit := of_Z 108;
          conservative_stop := of_Z 97; aggressive_stop := of_Z 95;
          risk_amount := of_Z 4; reward_amount := of_Z 8;
          risk_reward_ratio := of_Z 2 |}.
Proof.
  intros Hp Ha Hk.
  pose proof (stop_loss_bounds p a k Hp Ha Hk) as H. cbv zeta in H.
  destruct H as (H1 & H2 & H3 & H4 & H5 & H6).
  unfold calculate_stop_loss_take_profit in H1, H2, H3, H4, H5, H6.
  cbn [stop_loss take_profit conservative_stop aggressive_stop risk_amount
       reward_amount] in H1, H2, H3, H4, H5, H6.
  split.
  { unfold calculate_stop_loss_take_profit.
    cbn [stop_loss take_profit conservative_stop aggressive_stop risk_amount
         reward_amount risk_reward_ratio].
    repeat (split; [apply in_cents_round2; assumption|]). reflexivity. }
  split; [reflexivity|].
  unfold calculate_stop_loss_take_profit. f_equal; float_eq.
Qed.

Lemma stop_loss_take_profit_formulas_witness :
  (Qabs (this (Qc_of_Z 10)) <= 1048576)%Q
  /\ (Qabs (this MoreSamples.five_cents) <= 1048576)%Q
  /\ (Qabs (this (Qc_of_Z 2)) <= 1024)%Q
  /\ Fin MoreSamples.five_cents = Binary64.of_Q (5 # 100)
  /\ in_cents
       (conservative_stop
          (calculate_stop_loss_take_profit (of_Z 10)
             (Fin MoreSamples.five_cents) (of_Z 2)))
       (this (Qc_of_Z 10) - (3 # 2) * this MoreSamples.five_cents)
  /\ conservative_stop
       (calculate_stop_loss_take_profit (of_Z 10)
          (Fin MoreSamples.five_cents) (of_Z 2))
     = Binary64.of_Q (993 # 100).
Proof.
  split; [unfold Qle; simpl; lia|].
  split; [unfold Qle; simpl; lia|].
  split; [unfold Qle; simpl; lia|].
  split; [float_eq|].
  split; [|float_eq].
  apply (stop_loss_take_profit_formulas (Qc_of_Z 10) MoreSamples.five_cents
           (Qc_of_Z 2));
    unfold Qle; simpl; lia.
Defined.

(** Where the rounding of the floats shows: with price 10 and the float
    nearest to 0.05 as ATR the conservative and aggressive stops are
    9.93 and 9.88; with price 10^16 and ATR 0.3 the risk amount is 0;
    with price and ATR 10^308 the take profit is infinite. *)
Lemma stop_loss_float_samples :
  (let r := calculate_stop_loss_take_profit (of_Z 10)
              (Binary64.of_Q (5 # 100)) (of_Z 2) in
   conservative_stop r = Binary64.of_Q (993 # 100)
   /\ aggressive_stop r = Binary64.of_Q (988 # 100)
   /\ stop_loss r = Binary64.of_Q (99 # 10))
  /\ risk_amount
       (calculate_stop_loss_take_profit (Binary64.of_Q (10 ^ 16 # 1))
          (Binary64.of_Q (3 # 10)) (of_Z 2))
     = of_Z 0
  /\ take_profit
       (calculate_stop_loss_take_profit (Binary64.of_Q (10 ^ 308 # 1))
          (Binary64.of_Q (10 ^ 308 # 1)) (of_Z 2))
     = PInf.
Proof.
  cbv zeta. repeat split.
  all: float_eq.
Qed.

(** ** Order facts on floats *)



Lemma flt_fle (x y : fval) : flt x y = true -> fle x y = true.
Proof.
  destruct x, y; simpl; try congruence.
  intros H. apply bool_decide_eq_true in H. apply bool_decide_eq_true.
  apply Qclt_le_weak. exact H.
Qed.

Lemma flt_false_fle (x y : fval) :
  isnan x = false -> isnan y = false -> flt x y = false -> fle y x = true.
Proof.
  destruct x, y; simpl; try congruence.
  intros _ _ H. apply bool_decide_eq_false in H. apply bool_decide_eq_true.
  apply Qcnot_lt_le. exact H.
Qed.

Lemma flt_asym (x y : fval) : flt x y = true -> flt y x = false.
Proof.
  destruct x, y; simpl; try congruence.
  intros H. apply bool_decide_eq_true in H. apply bool_decide_eq_false.
  intros H'. exact (Qclt_not_le _ _ H (Qclt_le_weak _ _ H')).
Qed.

Lemma fle_trans (x y z : fval) :
  fle x y = true -> fle y z = true -> fle x z = true.
Proof.
  destruct x, y, z; simpl; try congruence.
  intros H1 H2. apply bool_decide_eq_true in H1, H2.
  apply bool_decide_eq_true. eapply Qcle_trans; eassumption.
Qed.

(** ** Level finder *)

Section Levels.

(** *** Sorting *)

Lemma insert_desc_perm (x : Level) (l : list Level) :
  insert_desc x l ≡ₚ x :: l.
Proof.
  induction l as [|y ys IH]; simpl; [reflexivity|].
  destruct (flt _ _); [|reflexivity].
  rewrite IH. apply Permutation_swap.
Qed.

Lemma insert_asc_perm (x : Level) (l : list Level) :
  insert_asc x l ≡ₚ x :: l.
Proof.
  induction l as [|y ys IH]; simpl; [reflexivity|].
  destruct (flt _ _); [|reflexivity].
  rewrite IH. apply Permutation_swap.
Qed.

Lemma sorted_desc_perm (l : list Level) : sorted_desc l ≡ₚ l.
Proof.
  induction l as [|x l IH]; simpl; [reflexivity|].
  rewrite insert_desc_perm, IH. reflexivity.
Qed.

Lemma sorted_asc_perm (l : list Level) : sorted_asc l ≡ₚ l.
Proof.
  induction l as [|x l IH]; simpl; [reflexivity|].
  rewrite insert_asc_perm, IH. reflexivity.
Qed.

Lemma insert_desc_sorted (x : Level) (l : list Level) :
  priced x -> Forall priced l ->
  StronglySorted price_desc l -> StronglySorted price_desc (insert_desc x l).
Proof.
  intros Hx Hl Hs. induction Hs as [|y ys Hs IH Hy]; simpl.
  - repeat constructor.
  - apply Forall_cons in Hl as [Hpy Hpys].
    destruct (flt (lv_price x) (lv_price y)) eqn:E.
    + constructor; [apply IH; assumption|].
      rewrite insert_desc_perm. constructor; [|exact Hy].
      apply flt_fle. exact E.
    + assert (Hxy : price_desc x y)
        by (apply flt_false_fle; assumption).
      constructor; [constructor; assumption|].
      constructor; [exact Hxy|].
      eapply Forall_impl; [exact Hy|].
      intros z Hz. unfold price_desc in *. eapply fle_trans; eassumption.
Qed.

Lemma insert_asc_sorted (x : Level) (l : list Level) :
  priced x -> Forall priced l ->
  StronglySorted price_asc l -> StronglySorted price_asc (insert_asc x l).
Proof.
  intros Hx Hl Hs. induction Hs as [|y ys Hs IH Hy]; simpl.
  - repeat constructor.
  - apply Forall_cons in Hl as [Hpy Hpys].
    destruct (flt (lv_price y) (lv_price x)) eqn:E.
    + constructor; [apply IH; assumption|].
      rewrite insert_asc_perm. constructor; [|exact Hy].
      apply flt_fle. exact E.
    + assert (Hxy : price_asc x y)
        by (apply flt_false_fle; assumption).
      constructor; [constructor; assumption|].
      constructor; [exact Hxy|].
      eapply Forall_impl; [exact Hy|].
      intros z Hz. unfold price_asc in *. eapply fle_trans; eassumption.
Qed.

Lemma sorted_desc_sorted (l : list Level) :
  Forall priced l -> StronglySorted price_desc (sorted_desc l).
Proof.
  induction 1 as [|x l Hx Hl IH]; simpl; [constructor|].
  apply insert_desc_sorted; [assumption| |assumption].
  rewrite sorted_desc_perm. exact Hl.
Qed.

Lemma sorted_asc_sorted (l : list Level) :
  Forall priced l -> StronglySorted price_asc (sorted_asc l).
Proof.
  induction 1 as [|x l Hx Hl IH]; simpl; [constructor|].
  apply insert_asc_sorted; [assumption| |assumption].
  rewrite sorted_asc_perm. exact Hl.
Qed.

Lemma StronglySorted_sublist {A} (R : relation A) (k l : list A) :
  k `sublist_of` l -> StronglySorted R l -> StronglySorted R k.
Proof.
  induction 1 as [|x k l Hsub IH|x k l Hsub IH]; intros Hs.
  - constructor.
  - inversion Hs as [|? ? Hs' Hall]; subst.
    constructor; [apply IH; exact Hs'|].
    rewrite Forall_forall in Hall |- *.
    intros y Hy. apply Hall. eapply elem_of_sublist; eassumption.
  - inversion Hs; subst. apply IH. assumption.
Qed.

(** *** Merging of near levels *)

Lemma remove_close_foldl_prefix (tol : fval) (acc : list Level) (p : Level)
    (rest : list Level) :
  foldl (remove_close_step tol) (acc ++ [p]) rest
  = acc ++ foldl (remove_close_step tol) [p] rest.
Proof.
  revert acc p. induction rest as [|x rest IH]; intros acc p; simpl.
  - reflexivity.
  - unfold remove_close_step at 2 4. rewrite last_snoc. simpl.
    destruct (fgt (relative_distance x p) tol).
    + pose proof (IH [p] x) as E. simpl in E.
      rewrite (IH (acc ++ [p]) x), E, <- app_assoc. reflexivity.
    + apply IH.
Qed.

(** A candidate is compared with the level kept last: it is dropped
    unless its relative distance exceeds the tolerance. *)
Lemma remove_close_levels_cons2 (tol : fval) (x y : Level) (rest : list Level) :
  remove_close_levels (x :: y :: rest) tol
  = if fgt (relative_distance y x) tol
    then x :: remove_close_levels (y :: rest) tol
    else remove_close_levels (x :: rest) tol.
Proof.
  simpl. unfold remove_close_step at 2. simpl.
  destruct (fgt (relative_distance y x) tol); [|reflexivity].
  apply (remove_close_foldl_prefix tol [x] y rest).
Qed.

Lemma remove_close_levels_head (tol : fval) (x : Level) (rest : list Level) :
  exists k, remove_close_levels (x :: rest) tol = x :: k
            /\ k `sublist_of` rest.
Proof.
  revert x. induction rest as [|y rest IH]; intros x.
  - exists []. split; [reflexivity|constructor].
  - rewrite remove_close_levels_cons2.
    destruct (fgt (relative_distance y x) tol).
    + destruct (IH y) as (k & -> & Hk).
      exists (y :: k). split; [reflexivity|]. constructor. exact Hk.
    + destruct (IH x) as (k & -> & Hk).
      exists k. split; [reflexivity|]. constructor. exact Hk.
Qed.

Lemma remove_close_levels_sublist (tol : fval) (l : list Level) :
  remove_close_levels l tol `sublist_of` l.
Proof.
  destruct l as [|x rest]; [constructor|].
  destruct (remove_close_levels_head tol x rest) as (k & -> & Hk).
  constructor. exact Hk.
Qed.

Lemma remove_close_levels_far (tol : fval) (l : list Level) :
  Sorted (far_apart tol) (remove_close_levels l tol).
Proof.
  destruct l as [|x rest]; [constructor|].
  revert x. induction rest as [|y rest IH]; intros x.
  - repeat constructor.
  - rewrite remove_close_levels_cons2.
    destruct (fgt (relative_distance y x) tol) eqn:E; [|apply IH].
    constructor; [apply IH|].
    destruct (remove_close_levels_head tol y rest) as (k & -> & _).
    constructor. exact E.
Qed.

(** *** Truncation *)



End Levels.

(** *** Candidate prices are never NaN when the close is finite *)

Section Candidates.













End Candidates.

(** ** Level finder: the post-processing *)

Section PostProcessingSpec.











End PostProcessingSpec.




(** ** Warm-up of the rolling columns computed in the module

    [OBV_MA5], [Volume_MA5], [Volume_MA20], [Volume_Ratio] and the
    rate of change are computed by the module itself; their first
    cells are NaN, which is not the number zero. *)

Section WarmUp.
Import Indicators.

Lemma nan_is_not_zero : NaN <> of_Z 0.
Proof. discriminate. Qed.

Lemma rolling_mean_length (w : nat) (s : list fval) :
  length (rolling_mean w s) = length s.
Proof. unfold rolling_mean. apply length_imap. Qed.

Lemma rolling_mean_warmup (w : nat) (s : list fval) (i : nat) :
  (S i < w)%nat -> (i < length s)%nat -> rolling_mean w s !! i = Some NaN.
Proof.
  intros Hw Hi. unfold rolling_mean. rewrite list_lookup_imap.
  destruct (lookup_lt_is_Some_2 s i Hi) as [x ->]. simpl.
  destruct (Nat.ltb_spec (S i) w); [reflexivity|lia].
Qed.

Lemma rolling_mean_short (w : nat) (s : list fval) :
  (length s < w)%nat -> rolling_mean w s = replicate (length s) NaN.
Proof.
  intros Hlen. apply list_eq. intros i.
  destruct (decide (i < length s)%nat) as [Hi|Hi].
  - rewrite rolling_mean_warmup by lia.
    rewrite lookup_replicate_2 by exact Hi. reflexivity.
  - rewrite !lookup_ge_None_2
      by (rewrite ?length_replicate, ?rolling_mean_length; lia).
    reflexivity.
Qed.

Lemma Volume_Ratio_warmup (volume : list fval) (i : nat) :
  (S i < 20)%nat -> (i < length volume)%nat ->
  Volume_Ratio volume !! i = Some NaN.
Proof.
  intros Hw Hi. unfold Volume_Ratio, series_mul_const, series_div, Volume_MA20.
  rewrite list_lookup_fmap, lookup_zip_with.
  destruct (lookup_lt_is_Some_2 volume i Hi) as [x ->]. simpl.
  rewrite rolling_mean_warmup by assumption. simpl.
  destruct x; reflexivity.
Qed.

Lemma shift_warmup (k : nat) (s : list fval) (i : nat) :
  (i < k)%nat -> (i < length s)%nat -> shift k s !! i = Some NaN.
Proof.
  intros Hk Hi. unfold shift.
  rewrite lookup_take_lt by exact Hi.
  rewrite lookup_app_l by (rewrite length_replicate; exact Hk).
  apply lookup_replicate_2. exact Hk.
Qed.

Lemma ROC_warmup (k : nat) (close : list fval) (i : nat) :
  (i < k)%nat -> (i < length close)%nat -> ROC k close !! i = Some NaN.
Proof.
  intros Hk Hi. unfold ROC, series_mul_const, series_div, series_sub.
  rewrite list_lookup_fmap, !lookup_zip_with.
  destruct (lookup_lt_is_Some_2 close i Hi) as [x ->]. simpl.
  rewrite shift_warmup by assumption. simpl.
  destruct x; reflexivity.
Qed.

End WarmUp.

(** ** VWAP *)

Section Vwap.
Import Indicators.

Lemma fadd_0_l (x : fval) : fadd (of_Z 0) x = x.
Proof.
  rewrite of_Z_0. destruct x; simpl; try reflexivity.
  rewrite Qcplus_0_l. reflexivity.
Qed.

(** The running sums kept per key hold, at every row, the sum of the
    non-NaN cells seen so far under that row's key. *)
Lemma groupby_cumsum_from_lookup (keys : list Z) (vals : list fval) :
  forall (acc : gmap Z fval) (i : nat) (k : Z) (v : fval),
    keys !! i = Some k -> vals !! i = Some v ->
    groupby_cumsum_from acc keys vals !! i
    = Some (if isnan v then NaN
            else foldl fadd (default (of_Z 0) (acc !! k))
                   (snd <$> filter (fun kv => kv.1 = k /\ isnan kv.2 = false)
                                   (take (S i) (zip keys vals)))).
Proof.
  revert vals. induction keys as [|k0 keys IH]; intros vals acc i k v Hk Hv.
  - destruct i; discriminate.
  - destruct vals as [|v0 vals]; [destruct i; discriminate|].
    destruct i as [|i].
    + injection Hk as ->. injection Hv as ->. simpl.
      destruct (isnan v) eqn:E; [reflexivity|].
      simpl. rewrite filter_cons_True by (simpl; tauto).
      reflexivity.
    + simpl in Hk, Hv. cbn [groupby_cumsum_from].
      change (take (S (S i)) (zip (k0 :: keys) (v0 :: vals)))
        with ((k0, v0) :: take (S i) (zip keys vals)).
      destruct (isnan v0) eqn:E0.
      * simpl. rewrite (IH vals acc i k v Hk Hv).
        rewrite filter_cons_False by (simpl; intros [_ ?]; congruence).
        reflexivity.
      * simpl.
        rewrite (IH vals _ i k v Hk Hv).
        destruct (isnan v); [reflexivity|].
        destruct (decide (k0 = k)) as [->|Hne].
        -- rewrite lookup_insert_eq.
           rewrite filter_cons_True by (simpl; tauto).
           reflexivity.
        -- rewrite lookup_insert_ne by exact Hne.
           rewrite filter_cons_False by (simpl; intros [? _]; congruence).
           reflexivity.
Qed.

Lemma groupby_cumsum_lookup (days : list Z) (vals : list fval) (i : nat)
    (d : Z) (v : fval) :
  days !! i = Some d -> vals !! i = Some v ->
  groupby_cumsum days vals !! i = Some (within_day_cumsum days vals i).
Proof.
  intros Hd Hv. unfold groupby_cumsum.
  rewrite (groupby_cumsum_from_lookup days vals ∅ i d v Hd Hv).
  unfold within_day_cumsum, same_day_cells, fsum.
  rewrite Hv, Hd, lookup_empty. reflexivity.
Qed.

Lemma filter_none {A} (P : A -> Prop) `{forall x, Decision (P x)}
    (l : list A) :
  Forall (fun x => ~ P x) l -> filter P l = [].
Proof.
  induction 1 as [|x l Hx Hl IH]; [reflexivity|].
  rewrite filter_cons_False by exact Hx. exact IH.
Qed.

(** On the first row of a day the running sum is the row's own cell:
    nothing is carried over the day boundary. *)
Lemma within_day_cumsum_first (days : list Z) (vals : list fval) (i : nat)
    (v : fval) :
  vals !! i = Some v -> is_Some (days !! i) ->
  (forall j, (j < i)%nat -> days !! j <> days !! i) ->
  within_day_cumsum days vals i = v.
Proof.
  intros Hv [d Hd] Hfirst. unfold within_day_cumsum, same_day_cells, fsum.
  rewrite Hv, Hd.
  destruct (isnan v) eqn:E; [destruct v; try discriminate; reflexivity|].
  assert (Hz : zip days vals !! i = Some (d, v)).
  { rewrite lookup_zip_with, Hd. simpl. rewrite Hv. reflexivity. }
  rewrite (take_S_r _ _ _ Hz), filter_app.
  assert (Hnone : filter (fun kv : Z * fval => kv.1 = d /\ isnan kv.2 = false)
                    (take i (zip days vals)) = []).
  { apply filter_none, Forall_lookup_2. intros j kv Hj [Hkey _].
    apply lookup_take_Some in Hj as [Hj Hlt].
    apply lookup_zip_with_Some in Hj as (x & y & -> & Hx & _).
    simpl in Hkey. subst x. apply (Hfirst j Hlt). congruence. }
  rewrite Hnone. simpl.
  rewrite filter_cons_True by (simpl; tauto).
  simpl. apply fadd_0_l.
Qed.

End Vwap.

Section VwapColumn.
Import Indicators.

Lemma tp_volume_lookup (high low close volume : list fval) (i : nat)
    (h l c v : fval) :
  high !! i = Some h -> low !! i = Some l -> close !! i = Some c ->
  volume !! i = Some v ->
  series_mul (typical_price high low close) volume !! i
  = Some (fmul (fdiv (fadd (fadd h l) c) (of_Z 3)) v).
Proof.
  intros Hh Hl Hc Hv.
  unfold series_mul, typical_price, series_div_const, series_add.
  rewrite lookup_zip_with, list_lookup_fmap, !lookup_zip_with.
  rewrite Hh, Hl, Hc, Hv. reflexivity.
Qed.

End VwapColumn.

Section VwapClaim.
Import Indicators.

(** C8. Whenever [calculate_technical_indicators] returns (whatever
    the [ta] package computes) on a frame with a date column, every
    VWAP cell is the sum of typical price times volume over the bars of
    the same calendar day up to that bar, divided by the sum of their
    volumes: bars of other days do not enter, so on the first bar of a
    day both sums start afresh and the cell is that bar's own ratio. *)
Theorem vwap_is_within_day_ratio
    (ta : Frame -> result TaColumns) (df : Frame) (out : IndicatorFrame)
    (dates : list Timestamp) (i : nat) :
  calculate_technical_indicators ta df = Ok out ->
  f_date df = Some dates ->
  length (f_high df) = length dates -> length (f_low df) = length dates ->
  length (f_close df) = length dates ->
  length (f_volume df) = length dates ->
  (i < length dates)%nat ->
  exists vwap,
    ind_VWAP out = Some vwap
    /\ vwap !! i
       = Some (fdiv
                 (within_day_cumsum (ts_days <$> dates)
                    (series_mul
                       (typical_price (f_high df) (f_low df) (f_close df))
                       (f_volume df)) i)
                 (within_day_cumsum (ts_days <$> dates) (f_volume df) i))
    /\ ((forall j, (j < i)%nat ->
            (ts_days <$> dates) !! j <> (ts_days <$> dates) !! i) ->
        exists h l c v,
          f_high df !! i = Some h /\ f_low df !! i = Some l
          /\ f_close df !! i = Some c /\ f_volume df !! i = Some v
          /\ vwap !! i
             = Some (fdiv (fmul (fdiv (fadd (fadd h l) c) (of_Z 3)) v) v)).
Proof.
  intros Hrun Hdate Lh Ll Lc Lv Hi.
  unfold calculate_technical_indicators in Hrun.
  apply bind_Ok in Hrun as (t & _ & Hrun). injection Hrun as <-.
  cbn [ind_VWAP]. rewrite Hdate.
  destruct df as [date high low close volume]. simpl in *. subst date.
  destruct (lookup_lt_is_Some_2 high i ltac:(lia)) as [h Hh].
  destruct (lookup_lt_is_Some_2 low i ltac:(lia)) as [l Hl].
  destruct (lookup_lt_is_Some_2 close i ltac:(lia)) as [c Hc].
  destruct (lookup_lt_is_Some_2 volume i ltac:(lia)) as [v Hv].
  destruct (lookup_lt_is_Some_2 dates i Hi) as [d Hd0].
  assert (Hd : date_only dates !! i = Some (ts_days d))
    by (unfold date_only; rewrite list_lookup_fmap, Hd0; reflexivity).
  pose proof (tp_volume_lookup high low close volume i h l c v Hh Hl Hc Hv)
    as Htpv.
  eexists. split; [reflexivity|].
  fold (date_only dates).
  assert (Hcell :
    series_div
      (groupby_cumsum (date_only dates)
         (series_mul (typical_price high low close) volume))
      (groupby_cumsum (date_only dates) volume) !! i
    = Some (fdiv
              (within_day_cumsum (date_only dates)
                 (series_mul (typical_price high low close) volume) i)
              (within_day_cumsum (date_only dates) volume i))).
  { unfold series_div at 1. rewrite lookup_zip_with.
    rewrite (groupby_cumsum_lookup _ _ i _ _ Hd Htpv).
    rewrite (groupby_cumsum_lookup _ _ i _ _ Hd Hv). reflexivity. }
  split; [exact Hcell|].
  intros Hfirst. exists h, l, c, v. repeat (split; [assumption|]).
  rewrite Hcell.
  rewrite (within_day_cumsum_first _ _ i _ Htpv (mk_is_Some _ _ Hd) Hfirst).
  rewrite (within_day_cumsum_first _ _ i _ Hv (mk_is_Some _ _ Hd) Hfirst).
  reflexivity.
Qed.

Lemma vwap_is_within_day_ratio_witness :
  exists out vwap,
    calculate_technical_indicators Samples.ta_blank Samples.two_days = Ok out
    /\ ind_VWAP out = Some vwap
    /\ fin_value <$> vwap !! 58%nat = Some (Some (20 # 1)%Q)
    /\ fin_value <$> vwap !! 59%nat = Some (Some (83 # 4)%Q)
    /\ vwap !! 59%nat
       = Some (fdiv
                 (within_day_cumsum (ts_days <$> Samples.two_days_dates)
                    (series_mul
                       (typical_price (f_high Samples.two_days)
                          (f_low Samples.two_days)
                          (f_close Samples.two_days))
                       (f_volume Samples.two_days)) 59)
                 (within_day_cumsum (ts_days <$> Samples.two_days_dates)
                    (f_volume Samples.two_days) 59)).
Proof.
  destruct (calculate_technical_indicators Samples.ta_blank Samples.two_days)
    as [out|e] eqn:Hrun; [|discriminate].
  destruct (vwap_is_within_day_ratio Samples.ta_blank Samples.two_days out
              Samples.two_days_dates 59 Hrun
              eq_refl ltac:(vm_compute; reflexivity)
              ltac:(vm_compute; reflexivity) ltac:(vm_compute; reflexivity)
              ltac:(vm_compute; reflexivity) ltac:(vm_compute; lia))
    as (vwap & Hv & Hcell & _).
  exists out, vwap. split; [reflexivity|]. split; [exact Hv|].
  split; [|split; [|exact Hcell]].
  - vm_compute in Hrun. injection Hrun as <-.
    vm_compute in Hv. injection Hv as <-.
    vm_compute; reflexivity.
  - vm_compute in Hrun. injection Hrun as <-.
    vm_compute in Hv. injection Hv as <-.
    vm_compute; reflexivity.
Defined.

End VwapClaim.

(** ** Price cache *)

Section PriceCache.
Import Db.

Context {R K : Type} `{EqDecision K} (key : R -> K).

Lemma sql_insert_keys (mk : Z -> R) (t t' : Table R) :
  sql_insert key mk t = Some t' ->
  (key (mk (tbl_seq t + 1)) ∉ key <$> tbl_rows t)
  /\ tbl_rows t' = tbl_rows t ++ [mk (tbl_seq t + 1)].
Proof.
  unfold sql_insert, conflicts. intros H.
  destruct (bool_decide _) eqn:E; [discriminate|].
  apply bool_decide_eq_false in E. injection H as <-. split; [exact E|reflexivity].
Qed.

(** A multi-row insert with a row whose key is already stored fails as
    a whole. *)
Lemma sql_insert_many_conflict (mks : list (Z -> R)) (mk : Z -> R) (k : K) :
  forall t : Table R,
    mk ∈ mks -> (forall id, key (mk id) = k) -> k ∈ key <$> tbl_rows t ->
    sql_insert_many key mks t = None.
Proof.
  induction mks as [|mk0 mks IH]; intros t Hin Hk Hstored.
  - inversion Hin.
  - simpl. destruct (sql_insert key mk0 t) as [t'|] eqn:E; [|reflexivity].
    simpl. apply sql_insert_keys in E as [Hfresh Hrows].
    apply elem_of_cons in Hin as [->|Hin].
    + rewrite Hk in Hfresh. contradiction.
    + apply IH; [exact Hin|exact Hk|].
      rewrite Hrows, fmap_app. apply elem_of_app. left. exact Hstored.
Qed.

(** What a successful multi-row insert leaves behind. *)
Lemma sql_insert_many_stored (mks : list (Z -> R)) :
  forall t t' : Table R,
    sql_insert_many key mks t = Some t' ->
    (forall k, k ∈ key <$> tbl_rows t -> k ∈ key <$> tbl_rows t')
    /\ (forall mk, mk ∈ mks -> exists id, key (mk id) ∈ key <$> tbl_rows t')
    /\ (NoDup (key <$> tbl_rows t) -> NoDup (key <$> tbl_rows t')).
Proof.
  induction mks as [|mk0 mks IH]; intros t t' H.
  - injection H as <-. split; [auto|]. split; [|auto].
    intros mk Hin. inversion Hin.
  - simpl in H. destruct (sql_insert key mk0 t) as [t1|] eqn:E; [|discriminate].
    simpl in H. apply sql_insert_keys in E as [Hfresh Hrows].
    destruct (IH t1 t' H) as (Hkeep & Hall & Hnodup).
    assert (Hstep : forall k, k ∈ key <$> tbl_rows t -> k ∈ key <$> tbl_rows t1).
    { intros k Hk. rewrite Hrows, fmap_app. apply elem_of_app. left. exact Hk. }
    split; [auto|]. split.
    + intros mk Hin. apply elem_of_cons in Hin as [->|Hin]; [|auto].
      exists (tbl_seq t + 1). apply Hkeep.
      rewrite Hrows, fmap_app. apply elem_of_app. right. simpl.
      apply list_elem_of_singleton. reflexivity.
    + intros Hnd. apply Hnodup. rewrite Hrows, fmap_app. simpl.
      apply NoDup_app. split; [exact Hnd|]. split.
      * intros k Hk Hk'. apply list_elem_of_singleton in Hk'. subst k.
        contradiction.
      * apply NoDup_singleton.
Qed.

End PriceCache.

Section SaveStockData.
Import Db.

(** A batch that touches an already stored (symbol, date) is rolled
    back as a whole: the stored row keeps its old values and the other
    rows of the batch are not stored either. *)
Lemma save_stock_data_conflict_noop (db : Database) (symbol : string)
    (bars : list PriceBar) (b : PriceBar) (now : Clock) :
  b ∈ bars ->
  (symbol, bar_date b) ∈ price_key <$> tbl_rows (stock_prices db) ->
  save_stock_data db symbol (Some bars) now = db.
Proof.
  intros Hin Hstored. unfold save_stock_data.
  destruct bars as [|b0 bars]; [reflexivity|].
  rewrite (sql_insert_many_conflict price_key _
             (price_row_of symbol now b) (symbol, bar_date b));
    [reflexivity| |reflexivity|exact Hstored].
  apply list_elem_of_fmap. exists b. split; [reflexivity|exact Hin].
Qed.

(** The UNIQUE(symbol, date) constraint is never broken. *)
Lemma save_stock_data_unique (db : Database) (symbol : string)
    (df : option (list PriceBar)) (now : Clock) :
  NoDup (price_key <$> tbl_rows (stock_prices db)) ->
  NoDup (price_key <$> tbl_rows (stock_prices (save_stock_data db symbol df now))).
Proof.
  intros Hnd. unfold save_stock_data.
  destruct df as [[|b bars]|]; try exact Hnd.
  destruct (sql_insert_many _ _ _) as [t|] eqn:E; [|exact Hnd].
  simpl. apply (sql_insert_many_stored price_key _ _ _ E). exact Hnd.
Qed.

(** Whether a batch is rejected depends on the stored keys only, not
    on the clock. *)
Lemma insert_many_rejected_any_clock (symbol : string) (now now' : Clock)
    (bars : list PriceBar) :
  forall t t' : Table PriceRow,
    price_key <$> tbl_rows t = price_key <$> tbl_rows t' ->
    sql_insert_many price_key (price_row_of symbol now <$> bars) t = None ->
    sql_insert_many price_key (price_row_of symbol now' <$> bars) t' = None.
Proof.
  induction bars as [|b bars IH]; intros t t' Hkeys H; [discriminate|].
  simpl in *. unfold sql_insert, conflicts in *.
  rewrite <- Hkeys.
  change (price_key (price_row_of symbol now' b (tbl_seq t' + 1)))
    with (price_key (price_row_of symbol now b (tbl_seq t + 1))).
  destruct (bool_decide _); [reflexivity|].
  simpl in *. eapply IH; [|exact H].
  simpl. rewrite !fmap_app, Hkeys. reflexivity.
Qed.

(** Saving the same batch a second time changes nothing. *)
Lemma save_stock_data_twice (db : Database) (symbol : string)
    (df : option (list PriceBar)) (now now' : Clock) :
  save_stock_data (save_stock_data db symbol df now) symbol df now'
  = save_stock_data db symbol df now.
Proof.
  destruct df as [[|b bars]|]; try reflexivity.
  destruct (sql_insert_many price_key (price_row_of symbol now <$> b :: bars)
              (stock_prices db)) as [t|] eqn:E.
  - apply (save_stock_data_conflict_noop _ symbol (b :: bars) b now');
      [left|].
    unfold save_stock_data. rewrite E. simpl.
    destruct (sql_insert_many_stored price_key _ _ _ E) as (_ & Hall & _).
    destruct (Hall (price_row_of symbol now b)) as (id & Hid); [left|exact Hid].
  - assert (Hsame : save_stock_data db symbol (Some (b :: bars)) now = db)
      by (unfold save_stock_data; rewrite E; reflexivity).
    rewrite Hsame. unfold save_stock_data.
    rewrite (insert_many_rejected_any_clock symbol now now' (b :: bars)
               _ _ eq_refl E).
    reflexivity.
Qed.

End SaveStockData.

(** C2. Stored: 2330 on 2024-01-02 with close 100.  Saving that date
    again with close 105 (together with a new date) leaves the table
    as it was: the stored close is still 100 and the new date is not
    stored. *)
Theorem save_stock_data_update_is_lost :
  (fun r => (Db.sp_symbol r, Db.sp_date r, Db.sp_close r))
    <$> Db.tbl_rows
          (Db.stock_prices
             (Db.save_stock_data Db.empty_db "2330"
                (Some [Samples.bar "2024-01-02" 100]) Samples.clock_utc))
  = [("2330", "2024-01-02", of_Z 100)]
  /\ Db.save_stock_data
       (Db.save_stock_data Db.empty_db "2330"
          (Some [Samples.bar "2024-01-02" 100]) Samples.clock_utc)
       "2330"
       (Some [Samples.bar "2024-01-02" 105; Samples.bar "2024-01-03" 106])
       (Samples.later Samples.clock_utc 86400)
     = Db.save_stock_data Db.empty_db "2330"
         (Some [Samples.bar "2024-01-02" 100]) Samples.clock_utc.
Proof. split; vm_compute; reflexivity. Qed.

(** ** News cache *)

Section NewsCache.
Import Db.

Lemma ascii_compare_refl (c : ascii) : Ascii.compare c c = Eq.
Proof. unfold Ascii.compare. apply N.compare_refl. Qed.

Lemma compare_append_prefix (p a b : string) :
  String.compare (p +:+ a) (p +:+ b) = String.compare a b.
Proof.
  induction p as [|c p IH]; simpl; [reflexivity|].
  rewrite ascii_compare_refl. exact IH.
Qed.

(** The expiry text has a [T] where the SQLite text has a blank, so on
    equal dates the expiry text is the greater one whatever the times. *)
Lemma date_T_after_date_blank (d t1 t2 : string) :
  String.ltb (d +:+ " " +:+ t1) (d +:+ "T" +:+ t2) = true.
Proof.
  unfold String.ltb. rewrite compare_append_prefix. reflexivity.
Qed.

(** A record passes the expiry test during the whole UTC day whose
    date equals the (local) date of its expiry. *)
Lemma news_live_on_expiry_date (symbol : string) (now : Clock) (r : NewsRow)
    (expires : datetime) :
  nc_symbol r = symbol ->
  nc_expires_at r = isoformat expires ->
  Calendar.fmt_date (dt_secs expires / 86400)
  = Calendar.fmt_date (clk_unix now / 86400) ->
  news_live symbol now r.
Proof.
  intros Hs He Hd. split; [exact Hs|].
  rewrite He. unfold sqlite_now, isoformat. rewrite Hd.
  apply date_T_after_date_blank.
Qed.

End NewsCache.

(** C6. A record saved at 2024-01-01 10:00:00 with the default 24
    hours (local time = UTC) is still returned 24 h 01 min later, and
    up to the last second of 2024-01-02, and is gone only at
    2024-01-03 00:00:00.  On a machine eight hours behind UTC a record
    saved at 20:00 local time is no longer returned 23 h 59 min
    later. *)
Theorem news_cache_expiry_ignores_time_of_day :
  Db.get_news_cache (Samples.news_db Samples.clock_utc) "2330"
    (Samples.later Samples.clock_utc (24 * 3600 + 60))
  = Some (Db.mkNewsHit "news" "perplexity" "2024-01-01 10:00:00")
  /\ Db.get_news_cache (Samples.news_db Samples.clock_utc) "2330"
       (Samples.later Samples.clock_utc (38 * 3600 - 1))
     = Some (Db.mkNewsHit "news" "perplexity" "2024-01-01 10:00:00")
  /\ Db.get_news_cache (Samples.news_db Samples.clock_utc) "2330"
       (Samples.later Samples.clock_utc (38 * 3600))
     = None
  /\ Db.get_news_cache (Samples.news_db Samples.clock_west) "2330"
       (Samples.later Samples.clock_west (24 * 3600 - 60))
     = None.
Proof. repeat split; vm_compute; reflexivity. Qed.

(** ** Institutional table *)

Section Filters.
Context {A : Type} (P Q : A -> Prop)
        `{forall x, Decision (P x)} `{forall x, Decision (Q x)}.

Lemma filter_filter_implied (l : list A) :
  (forall x, P x -> Q x) -> filter P (filter Q l) = filter P l.
Proof.
  intros HPQ. induction l as [|x l IH]; [reflexivity|].
  destruct (decide (P x)) as [HP|HP].
  - rewrite (filter_cons_True Q) by auto.
    rewrite !(filter_cons_True P) by exact HP. rewrite IH. reflexivity.
  - rewrite (filter_cons_False P x l) by exact HP.
    destruct (decide (Q x)) as [HQ|HQ].
    + rewrite (filter_cons_True Q) by exact HQ.
      rewrite (filter_cons_False P) by exact HP. exact IH.
    + rewrite (filter_cons_False Q) by exact HQ. exact IH.
Qed.

Lemma filter_filter_excluded (l : list A) :
  (forall x, P x -> ~ Q x) -> filter P (filter Q l) = [].
Proof.
  intros HPQ. apply filter_none, Forall_forall.
  intros x Hx HP. apply list_elem_of_filter in Hx as [HQ _].
  exact (HPQ x HP HQ).
Qed.

Lemma filter_filter_swap (l : list A) :
  filter P (filter Q l) = filter Q (filter P l).
Proof.
  induction l as [|x l IH]; [reflexivity|].
  destruct (decide (P x)) as [HP|HP], (decide (Q x)) as [HQ|HQ];
    repeat first
      [ rewrite (filter_cons_True P) by assumption
      | rewrite (filter_cons_True Q) by assumption
      | rewrite (filter_cons_False P) by assumption
      | rewrite (filter_cons_False Q) by assumption ];
    rewrite ?IH; reflexivity.
Qed.

End Filters.

Section Institutional.
Import Db.

Variable symbol : string.
Variable now : Clock.

Lemma required_value_column (c : string) :
  c ∈ ["Foreign_Investor"; "Investment_Trust"; "Dealer_Self";
       "Dealer_Hedging"; "Dealer_Total"; "Total"] ->
  c ∈ required_columns /\ c <> "date".
Proof.
  intros Hc. split; [right; exact Hc|].
  intros ->. repeat (apply elem_of_cons in Hc as [Hc|Hc]; [discriminate|]).
  inversion Hc.
Qed.

Lemma inst_row_of_Ok (x : InstIn) :
  has_cells x ->
  exists mk, inst_row_of symbol now x = Ok mk
             /\ forall id, stores symbol x (mk id).
Proof.
  intros Hx. unfold inst_row_of, cell.
  assert (Hc : forall c,
             c ∈ ["Foreign_Investor"; "Investment_Trust"; "Dealer_Self";
                  "Dealer_Hedging"; "Dealer_Total"; "Total"] ->
             is_Some (in_cells x !! c)).
  { intros c Hc. destruct (required_value_column c Hc). auto. }
  destruct (Hc "Foreign_Investor") as [fi Hfi]; [set_solver|].
  destruct (Hc "Investment_Trust") as [tr Htr]; [set_solver|].
  destruct (Hc "Dealer_Self") as [ds Hds]; [set_solver|].
  destruct (Hc "Dealer_Hedging") as [dh Hdh]; [set_solver|].
  destruct (Hc "Dealer_Total") as [dt Hdt]; [set_solver|].
  destruct (Hc "Total") as [tot Htot]; [set_solver|].
  rewrite Hfi, Htr, Hds, Hdh, Hdt, Htot. simpl.
  eexists. split; [reflexivity|].
  intros id. repeat split; assumption.
Qed.

(** One [INSERT OR REPLACE] of a row of [symbol]. *)
Lemma insert_or_replace_other (mk : Z -> InstRow) (t : Table InstRow) :
  (forall id, it_symbol (mk id) = symbol) ->
  rows_not_of symbol (sql_insert_or_replace inst_key mk t)
  = rows_not_of symbol t.
Proof.
  intros Hmk. unfold rows_not_of, sql_insert_or_replace. simpl.
  rewrite filter_app.
  rewrite (filter_cons_False _ (mk (tbl_seq t + 1)) [])
    by (intros Hne; apply Hne, Hmk).
  rewrite filter_nil, app_nil_r.
  apply filter_filter_implied.
  intros x Hx Hkey. apply Hx.
  unfold inst_key in Hkey. injection Hkey as -> _. apply Hmk.
Qed.

Lemma insert_or_replace_own (mk : Z -> InstRow) (t : Table InstRow) :
  (forall id, it_symbol (mk id) = symbol) ->
  rows_of symbol (sql_insert_or_replace inst_key mk t)
  = filter (fun r => inst_key r <> inst_key (mk (tbl_seq t + 1)))
           (rows_of symbol t)
    ++ [mk (tbl_seq t + 1)].
Proof.
  intros Hmk. unfold rows_of, sql_insert_or_replace. simpl.
  rewrite filter_app.
  rewrite (filter_cons_True _ (mk (tbl_seq t + 1)) []) by apply Hmk.
  rewrite filter_nil. f_equal. apply filter_filter_swap.
Qed.

(** The loop over a complete frame. *)
Lemma insert_inst_rows_spec (rows : list InstIn) :
  forall t : Table InstRow,
    Forall has_cells rows ->
    exists t',
      insert_inst_rows symbol now rows t = Ok t'
      /\ rows_not_of symbol t' = rows_not_of symbol t
      /\ (forall r, r ∈ rows_of symbol t' ->
            r ∈ rows_of symbol t \/ exists x, x ∈ rows /\ stores symbol x r)
      /\ (forall k, k ∈ inst_key <$> rows_of symbol t ->
            k ∈ inst_key <$> rows_of symbol t')
      /\ (forall x, x ∈ rows ->
            (symbol, Calendar.strftime_ymd (in_date x))
              ∈ inst_key <$> rows_of symbol t')
      /\ (NoDup (inst_key <$> rows_of symbol t) ->
          NoDup (inst_key <$> rows_of symbol t')).
Proof.
  induction rows as [|x rows IH]; intros t Hall.
  - exists t. split; [reflexivity|]. split; [reflexivity|].
    split; [auto|]. split; [auto|]. split; [|auto].
    intros x Hx. inversion Hx.
  - apply Forall_cons in Hall as [Hx Hall].
    destruct (inst_row_of_Ok x Hx) as (mk & Hmk & Hst).
    assert (Hsym : forall id, it_symbol (mk id) = symbol)
      by (intros id; apply (Hst id)).
    set (t1 := sql_insert_or_replace inst_key mk t).
    destruct (IH t1 Hall) as (t' & Hrun & Hother & Hfrom & Hkeep & Hin & Hnd).
    pose proof (insert_or_replace_own mk t Hsym) as Hown. fold t1 in Hown.
    set (r0 := mk (tbl_seq t + 1)) in *.
    assert (Hkey0 : inst_key r0 = (symbol, Calendar.strftime_ymd (in_date x))).
    { unfold inst_key, r0. destruct (Hst (tbl_seq t + 1)) as (Ha & Hb & _).
      rewrite Ha, Hb. reflexivity. }
    exists t'. split; [simpl; rewrite Hmk; simpl; exact Hrun|].
    split; [rewrite Hother; apply insert_or_replace_other; exact Hsym|].
    split; [|split; [|split]].
    + intros r Hr. destruct (Hfrom r Hr) as [Hr1|(y & Hy & Hs)].
      * rewrite Hown in Hr1. apply elem_of_app in Hr1 as [Hr1|Hr1].
        -- left. apply list_elem_of_filter in Hr1 as [_ Hr1]. exact Hr1.
        -- right. apply list_elem_of_singleton in Hr1. subst r.
           exists x. split; [left|apply Hst].
      * right. exists y. split; [right; exact Hy|exact Hs].
    + intros k Hk. apply Hkeep. rewrite Hown, fmap_app.
      apply elem_of_app.
      destruct (decide (k = inst_key r0)) as [->|Hne].
      * right. simpl. left.
      * left. apply list_elem_of_fmap in Hk as (r & -> & Hr).
        apply list_elem_of_fmap_2, list_elem_of_filter. split; assumption.
    + intros y Hy. apply elem_of_cons in Hy as [->|Hy]; [|auto].
      apply Hkeep. rewrite Hown, fmap_app. apply elem_of_app. right.
      simpl. rewrite Hkey0. left.
    + intros Hnodup. apply Hnd. rewrite Hown, fmap_app.
      apply NoDup_app. split; [|split].
      * apply (sublist_NoDup _ (inst_key <$> rows_of symbol t));
          [exact Hnodup|apply fmap_sublist, sublist_filter].
      * intros k Hk Hk'. simpl in Hk'. apply list_elem_of_singleton in Hk'.
        subst k. apply list_elem_of_fmap in Hk as (r & Hkr & Hr).
        apply list_elem_of_filter in Hr as [Hne _]. congruence.
      * apply NoDup_singleton.
Qed.

End Institutional.

(** The loop keeps, of the batch rows of one date, the last. *)
Section InstitutionalUpsert.
Import Db.

Variable symbol : string.
Variable now : Clock.

Lemma batch_keys_date (x : InstIn) (rows : list InstIn) :
  (symbol, date_text x) ∈ batch_keys symbol rows
  <-> date_text x ∈ date_text <$> rows.
Proof.
  unfold batch_keys. rewrite !list_elem_of_fmap. split.
  - intros (y & Hk & Hy). exists y. split; [congruence|exact Hy].
  - intros (y & Hk & Hy). exists y. split; [congruence|exact Hy].
Qed.

Lemma inst_row_of_stamped (x : InstIn) (mk : Z -> InstRow) :
  inst_row_of symbol now x = Ok mk -> forall id, stamped now (mk id).
Proof.
  unfold inst_row_of. intros H.
  repeat (apply bind_Ok in H as (? & _ & H)).
  injection H as <-. intros id. split; reflexivity.
Qed.

Lemma inst_row_of_cells (x : InstIn) (mk : Z -> InstRow) :
  inst_row_of symbol now x = Ok mk -> has_cells x.
Proof.
  unfold inst_row_of, cell. intros H c Hc Hdate.
  repeat (apply bind_Ok in H as (? & ? & H)).
  unfold required_columns in Hc.
  repeat (apply elem_of_cons in Hc as [->|Hc];
          [first [congruence
                 | match goal with
                   | E : match in_cells x !! ?k with _ => _ end = Ok _
                     |- is_Some (in_cells x !! ?k) =>
                       destruct (in_cells x !! k); [eauto|discriminate]
                   end]|]).
  inversion Hc.
Qed.

Lemma insert_inst_rows_incomplete (rows : list InstIn) :
  ~ Forall has_cells rows ->
  forall t, exists e, insert_inst_rows symbol now rows t = Raise e.
Proof.
  induction rows as [|x rows IH]; intros Hbad t.
  - exfalso. apply Hbad. constructor.
  - simpl. destruct (inst_row_of symbol now x) as [mk|e] eqn:E.
    + simpl. apply IH. intros Hall. apply Hbad.
      constructor; [eapply inst_row_of_cells; exact E|exact Hall].
    + exists e. reflexivity.
Qed.

Lemma insert_inst_rows_last (rows : list InstIn) :
  forall t : Table InstRow,
    Forall has_cells rows ->
    exists t' news,
      insert_inst_rows symbol now rows t = Ok t'
      /\ rows_of symbol t'
         = filter (fun r => inst_key r ∉ batch_keys symbol rows)
                  (rows_of symbol t)
           ++ news
      /\ Forall2 (stores symbol) (last_per_date rows) news
      /\ Forall (stamped now) news.
Proof.
  induction rows as [|x rows IH]; intros t Hall.
  - exists t, []. split; [reflexivity|]. split; [|split; constructor].
    rewrite app_nil_r. symmetry.
    induction (rows_of symbol t) as [|r l IHl]; [reflexivity|].
    rewrite filter_cons_True by (intros Hr; inversion Hr).
    f_equal. exact IHl.
  - apply Forall_cons in Hall as [Hx Hall].
    destruct (inst_row_of_Ok symbol now x Hx) as (mk & Hmk & Hst).
    assert (Hsym : forall id, it_symbol (mk id) = symbol)
      by (intros id; apply (Hst id)).
    set (t1 := sql_insert_or_replace inst_key mk t).
    destruct (IH t1 Hall) as (t' & news & Hrun & Hrows & Hnews & Hstamp).
    pose proof (insert_or_replace_own symbol mk t Hsym) as Hown.
    fold t1 in Hown.
    set (r0 := mk (tbl_seq t + 1)) in *.
    assert (Hkey0 : inst_key r0 = (symbol, date_text x)).
    { unfold inst_key, r0, date_text.
      destruct (Hst (tbl_seq t + 1)) as (Ha & Hb & _).
      rewrite Ha, Hb. reflexivity. }
    assert (Hold :
      filter (fun r => inst_key r ∉ batch_keys symbol rows)
             (filter (fun r => inst_key r <> inst_key r0) (rows_of symbol t))
      = filter (fun r => inst_key r ∉ batch_keys symbol (x :: rows))
               (rows_of symbol t)).
    { rewrite list_filter_filter. apply list_filter_iff. intros r.
      rewrite Hkey0. unfold batch_keys at 2. rewrite fmap_cons.
      rewrite not_elem_of_cons. fold (batch_keys symbol rows). tauto. }
    rewrite Hown, filter_app, Hold in Hrows.
    destruct (decide (date_text x ∈ date_text <$> rows)) as [Hin|Hout].
    + exists t', news. split; [simpl; rewrite Hmk; exact Hrun|].
      split; [|split; [|exact Hstamp]].
      * rewrite Hrows. rewrite (filter_cons_False _ r0 []);
          [rewrite filter_nil, app_nil_r; reflexivity|].
        intros Hne. apply Hne. rewrite Hkey0. apply batch_keys_date, Hin.
      * simpl. rewrite bool_decide_eq_true_2 by exact Hin. exact Hnews.
    + exists t', (r0 :: news). split; [simpl; rewrite Hmk; exact Hrun|].
      split; [|split].
      * rewrite Hrows. rewrite (filter_cons_True _ r0 []);
          [rewrite filter_nil, <- app_assoc; reflexivity|].
        rewrite Hkey0. intros Hk. apply Hout, batch_keys_date, Hk.
      * simpl. rewrite bool_decide_eq_false_2 by exact Hout.
        constructor; [apply Hst|exact Hnews].
      * constructor; [|exact Hstamp].
        apply (inst_row_of_stamped x mk Hmk).
Qed.

End InstitutionalUpsert.

Section InstitutionalSave.
Import Db.

Lemma cleared_rows (symbol : string) (t : Table InstRow) :
  rows_of symbol (sql_delete (fun r => it_symbol r = symbol) t) = []
  /\ rows_not_of symbol (sql_delete (fun r => it_symbol r = symbol) t)
     = rows_not_of symbol t.
Proof.
  unfold rows_of, rows_not_of, sql_delete. simpl. split.
  - apply filter_filter_excluded. intros x Hx Hne. exact (Hne Hx).
  - apply filter_filter_implied. auto.
Qed.

Lemma usable_frame (f : InstFrame) :
  if_rows f <> [] -> missing_columns f = [] ->
  inst_empty f = false /\ bool_decide (missing_columns f <> []) = false.
Proof.
  intros Hrows Hmiss. split.
  - unfold inst_empty. apply orb_false_iff. split.
    + apply bool_decide_eq_false. exact Hrows.
    + apply bool_decide_eq_false. intros Hcols.
      unfold missing_columns in Hmiss. rewrite Hcols in Hmiss.
      vm_compute in Hmiss. discriminate.
  - apply bool_decide_eq_false. intros Hne. exact (Hne Hmiss).
Qed.

End InstitutionalSave.

(** C7, as the code has it.  Saving a non-empty frame that has the
    required columns and a number in every numeric cell succeeds: the
    price table, the news table and the rows of every other symbol are
    left as they were; the rows stored before for the saved symbol are
    all deleted, and afterwards the symbol's rows are the batch rows in
    batch order, of the rows of one date the last one only (an upsert
    keyed by symbol and date), each stamped with the time of the save;
    no (symbol, date) occurs twice.  When some numeric cell is missing
    the call returns [False] and leaves the database as it was. *)
Theorem save_institutional_replaces_symbol
    (db : Db.Database) (symbol : string) (f : Db.InstFrame) (now : Db.Clock) :
  Db.if_rows f <> [] ->
  Db.missing_columns f = [] ->
  (Db.complete f ->
   exists db',
     Db.save_institutional_data db symbol (Some f) now = (db', true)
     /\ Db.stock_prices db' = Db.stock_prices db
     /\ Db.news_cache db' = Db.news_cache db
     /\ Db.rows_not_of symbol (Db.institutional_trades db')
        = Db.rows_not_of symbol (Db.institutional_trades db)
     /\ Forall2 (Db.stores symbol) (Db.last_per_date (Db.if_rows f))
          (Db.rows_of symbol (Db.institutional_trades db'))
     /\ Forall (Db.stamped now)
          (Db.rows_of symbol (Db.institutional_trades db'))
     /\ NoDup (Db.inst_key
                 <$> Db.rows_of symbol (Db.institutional_trades db')))
  /\ (~ Db.complete f ->
      Db.save_institutional_data db symbol (Some f) now = (db, false)).
Proof.
  intros Hrows Hmiss.
  destruct (usable_frame f Hrows Hmiss) as (Hne & Hcols).
  split.
  - intros Hcomplete.
    destruct (cleared_rows symbol (Db.institutional_trades db))
      as (Hnone & Hrest).
    destruct (insert_inst_rows_spec symbol now (Db.if_rows f)
                (Db.sql_delete (fun r => Db.it_symbol r = symbol)
                               (Db.institutional_trades db)) Hcomplete)
      as (t' & Hrun & Hother & _ & _ & _ & Hnd).
    destruct (insert_inst_rows_last symbol now (Db.if_rows f)
                (Db.sql_delete (fun r => Db.it_symbol r = symbol)
                               (Db.institutional_trades db)) Hcomplete)
      as (t'' & news & Hrun' & Hrows' & Hnews & Hstamp).
    rewrite Hrun in Hrun'. injection Hrun' as <-.
    rewrite Hnone in Hrows'. simpl in Hrows'.
    unfold Db.save_institutional_data. rewrite Hne, Hcols, Hrun.
    eexists. split; [reflexivity|]. simpl.
    split; [reflexivity|]. split; [reflexivity|].
    split; [rewrite Hother; exact Hrest|].
    rewrite Hrows'. split; [exact Hnews|]. split; [exact Hstamp|].
    rewrite <- Hrows'. apply Hnd. rewrite Hnone. constructor.
  - intros Hbad.
    destruct (insert_inst_rows_incomplete symbol now (Db.if_rows f) Hbad
                (Db.sql_delete (fun r => Db.it_symbol r = symbol)
                               (Db.institutional_trades db))) as (e & He).
    unfold Db.save_institutional_data. rewrite Hne, Hcols, He. reflexivity.
Qed.

Lemma save_institutional_replaces_symbol_witness :
  exists db',
    Db.save_institutional_data Samples.inst_db_day1 "2330"
      (Some Samples.inst_frame_repeat)
      (Samples.later Samples.clock_utc 86400) = (db', true)
    /\ (fun r => (Db.it_date r, Db.it_total_institutional r))
         <$> Db.rows_of "2330" (Db.institutional_trades db')
       = [("2024-01-03", of_Z 600); ("2024-01-04", of_Z 700)]
    /\ Forall2 (Db.stores "2330")
         [Samples.inst_in 19725 600; Samples.inst_in 19726 700]
         (Db.rows_of "2330" (Db.institutional_trades db')).
Proof.
  destruct (save_institutional_replaces_symbol Samples.inst_db_day1 "2330"
              Samples.inst_frame_repeat
              (Samples.later Samples.clock_utc 86400))
    as [Hgood _].
  - discriminate.
  - vm_compute. reflexivity.
  - destruct Hgood as (db' & Hsave & _ & _ & _ & Hlast & _).
    + repeat constructor; intros c Hc Hdate;
        repeat (apply elem_of_cons in Hc as [->|Hc];
                [first [congruence | vm_compute; eexists; reflexivity]|]);
        inversion Hc.
    + exists db'. split; [exact Hsave|]. split; [|exact Hlast].
      vm_compute in Hsave. injection Hsave as <-. vm_compute. reflexivity.
Defined.

(** C7, counterexample to the claim as stated.  With 2330 stored for
    2024-01-02, saving a batch that holds 2024-01-03 only removes the
    stored row of 2024-01-02, a date outside the batch. *)
Lemma save_institutional_drops_dates_outside_batch :
  exists r,
    r ∈ Db.tbl_rows (Db.institutional_trades Samples.inst_db_day1)
    /\ Db.it_symbol r = "2330"
    /\ Db.it_date r = "2024-01-02"
    /\ Calendar.strftime_ymd (Db.in_date (Samples.inst_in 19725 700))
       = "2024-01-03"
    /\ r ∉ Db.tbl_rows
            (Db.institutional_trades
               (Db.save_institutional_data Samples.inst_db_day1 "2330"
                  (Some (Samples.inst_frame [Samples.inst_in 19725 700]))
                  (Samples.later Samples.clock_utc 86400)).1).
Proof.
  eexists. split; [vm_compute; left|].
  split; [reflexivity|]. split; [reflexivity|]. split; [reflexivity|].
  intros Hin. apply (list_elem_of_fmap_2 Db.it_date) in Hin.
  vm_compute in Hin.
  apply list_elem_of_singleton in Hin. discriminate.
Qed.

(** ** Worked samples *)

(** The level finder on the one-row sample: of the resistance
    candidates 100 (MA5), 100.3 (MA10), 101 (MA20) and 101 (ATR) the
    second and the fourth are merged away. *)
Lemma level_row_levels :
  (fun sr => (lv_desc <$> sr_support sr, lv_desc <$> sr_resistance sr))
    <$> (match calculate_support_resistance [Samples.level_row]
                 num_levels_default with
         | Ok sr => Some sr
         | Raise _ => None
         end)
  = Some (["ATR 2倍止損點"; "MA60 支撐"], ["MA5 壓力"; "MA20 壓力"]).
Proof. vm_compute. reflexivity. Qed.

(** * Properties of the further code *)

(** ** Signal composer: what a rule can do *)

Lemma bind_Raise {A B} (m : result A) (f : A -> result B) (e : exn) :
  m ≫= f = Raise e <-> m = Raise e \/ exists a, m = Ok a /\ f a = Raise e.
Proof.
  destruct m as [a|e']; simpl; split.
  - intros H. right. exists a. split; [reflexivity|exact H].
  - intros [H|(a' & Ha & Hf)]; [discriminate|]. injection Ha as ->. exact Hf.
  - intros H. left. injection H as ->. reflexivity.
  - intros [H|(a' & Ha & _)]; [injection H as ->; reflexivity|discriminate].
Qed.

(** Take a hypothesis about a rule apart, bind by bind and test by
    test. *)
Ltac rule_inv H :=
  repeat first
    [ apply bind_Ok in H as (? & ? & H)
    | match type of H with
      | (if ?b then _ else _) = _ => destruct b eqn:?
      end ];
  try (injection H as <-).

Ltac fired := right; do 2 eexists; split; [reflexivity|];
  split; [set_solver|lia].

Section RuleSteps.

Lemma rule_macd_step (latest prev : Row) (st st' : SigState) :
  rule_macd latest prev st = Ok st' -> rule_step macd_labels st st'.
Proof.
  unfold rule_macd. intros H. rule_inv H; first [left; reflexivity|fired].
Qed.

Lemma rule_kd_step (latest prev : Row) (st st' : SigState) :
  rule_kd latest prev st = Ok st' -> rule_step other_labels st st'.
Proof.
  unfold rule_kd. intros H. rule_inv H; first [left; reflexivity|fired].
Qed.

Lemma rule_rsi_step (latest : Row) (st st' : SigState) :
  rule_rsi latest st = Ok st' -> rule_step other_labels st st'.
Proof.
  unfold rule_rsi. intros H. rule_inv H; first [left; reflexivity|fired].
Qed.

Lemma rule_williams_step (latest : Row) (st st' : SigState) :
  rule_williams latest st = Ok st' -> rule_step other_labels st st'.
Proof.
  unfold rule_williams. intros H. rule_inv H; first [left; reflexivity|fired].
Qed.

Lemma rule_adx_step (latest : Row) (st st' : SigState) :
  rule_adx latest st = Ok st' -> rule_step other_labels st st'.
Proof.
  unfold rule_adx. intros H. rule_inv H; first [left; reflexivity|fired].
Qed.

Lemma rule_cci_step (latest : Row) (st st' : SigState) :
  rule_cci latest st = Ok st' -> rule_step other_labels st st'.
Proof.
  unfold rule_cci. intros H. rule_inv H; first [left; reflexivity|fired].
Qed.

Lemma rule_obv_step (df : DataFrame) (latest : Row) (st st' : SigState) :
  rule_obv df latest st = Ok st' -> rule_step other_labels st st'.
Proof.
  unfold rule_obv. intros H. rule_inv H; first [left; reflexivity|fired].
Qed.

Lemma rule_bollinger_step (latest : Row) (st st' : SigState) :
  rule_bollinger latest st = Ok st' -> rule_step other_labels st st'.
Proof.
  unfold rule_bollinger. intros H. rule_inv H; first [left; reflexivity|fired].
Qed.

Lemma rule_volume_step (latest : Row) (st st' : SigState) :
  rule_volume latest st = Ok st' -> rule_step other_labels st st'.
Proof.
  unfold rule_volume. intros H. rule_inv H; first [left; reflexivity|fired].
Qed.

Lemma rule_roc_step (latest : Row) (st st' : SigState) :
  rule_roc latest st = Ok st' -> rule_step other_labels st st'.
Proof.
  unfold rule_roc. intros H. rule_inv H; first [left; reflexivity|fired].
Qed.

(** The run of the ten rules behind a report. *)
Lemma report_run (df : DataFrame) (r : SignalReport) :
  get_daytrading_signals df = Ok (Some r) ->
  exists latest prev st1 st,
    iloc_neg df 1 = Ok latest /\ iloc_neg df 2 = Ok prev
    /\ rule_macd latest prev (mkSigState [] 0) = Ok st1
    /\ (exists s2 s3 s4 s5 s6 s7 s8 s9,
           rule_step other_labels st1 s2 /\ rule_step other_labels s2 s3
           /\ rule_step other_labels s3 s4 /\ rule_step other_labels s4 s5
           /\ rule_step other_labels s5 s6 /\ rule_step other_labels s6 s7
           /\ rule_step other_labels s7 s8 /\ rule_step other_labels s8 s9
           /\ rule_step other_labels s9 st)
    /\ signals r = st_signals st
    /\ strength r = clamp_strength (st_score st)
    /\ recommendation r = classify (st_score st)
    /\ price r = default NaN (row_cols latest !! "close")
    /\ timestamp r = row_date latest.
Proof.
  unfold get_daytrading_signals.
  destruct (_ || _); [discriminate|]. intros H.
  apply bind_Ok in H as (latest & Hl & H).
  apply bind_Ok in H as (prev & Hp & H).
  apply bind_Ok in H as (close & Hc & H).
  apply bind_Ok in H as (st1 & H1 & H).
  apply bind_Ok in H as (s2 & H2 & H).
  apply bind_Ok in H as (s3 & H3 & H).
  apply bind_Ok in H as (s4 & H4 & H).
  apply bind_Ok in H as (s5 & H5 & H).
  apply bind_Ok in H as (s6 & H6 & H).
  apply bind_Ok in H as (s7 & H7 & H).
  apply bind_Ok in H as (s8 & H8 & H).
  apply bind_Ok in H as (s9 & H9 & H).
  apply bind_Ok in H as (st & H10 & H).
  injection H as <-. apply getitem_Ok in Hc.
  exists latest, prev, st1, st. repeat (split; [assumption|]).
  split.
  { exists s2, s3, s4, s5, s6, s7, s8, s9.
    repeat split;
      first [ eapply rule_kd_step; eassumption
            | eapply rule_rsi_step; eassumption
            | eapply rule_williams_step; eassumption
            | eapply rule_adx_step; eassumption
            | eapply rule_cci_step; eassumption
            | eapply rule_obv_step; eassumption
            | eapply rule_bollinger_step; eassumption
            | eapply rule_volume_step; eassumption
            | eapply rule_roc_step; eassumption ]. }
  simpl. rewrite Hc. repeat split.
Qed.

(** Each step adds at most one label and at most 20 points. *)
Lemma rule_step_budget (labels : list string) (st st' : SigState) (n : nat) :
  rule_step labels st st' ->
  (length (st_signals st) <= n)%nat ->
  Z.abs (st_score st) <= 20 * Z.of_nat (length (st_signals st)) ->
  (length (st_signals st') <= S n)%nat
  /\ Z.abs (st_score st') <= 20 * Z.of_nat (length (st_signals st')).
Proof.
  intros [->|(label & delta & -> & _ & Hd)] Hn Hs.
  - split; lia.
  - unfold fire; simpl. rewrite length_app; simpl. split; lia.
Qed.

End RuleSteps.

Lemma clamp_strength_abs (score : Z) :
  Z.abs (clamp_strength score) <= Z.abs score.
Proof. unfold clamp_strength. lia. Qed.

Lemma report_budget (df : DataFrame) (r : SignalReport) :
  get_daytrading_signals df = Ok (Some r) ->
  exists st,
    signals r = st_signals st
    /\ strength r = clamp_strength (st_score st)
    /\ recommendation r = classify (st_score st)
    /\ (length (st_signals st) <= 10)%nat
    /\ Z.abs (st_score st) <= 20 * Z.of_nat (length (st_signals st)).
Proof.
  intros H.
  destruct (report_run df r H)
    as (latest & prev & st1 & st & _ & _ & H1 & Hrest & Hsig & Hstr & Hrec & _).
  destruct Hrest as (s2 & s3 & s4 & s5 & s6 & s7 & s8 & s9
                     & H2 & H3 & H4 & H5 & H6 & H7 & H8 & H9 & H10).
  apply rule_macd_step in H1.
  exists st. repeat (split; [assumption|]).
  destruct (rule_step_budget _ _ _ 0 H1) as [L1 B1]; [simpl; lia..|].
  destruct (rule_step_budget _ _ _ 1 H2 L1 B1) as [L2 B2].
  destruct (rule_step_budget _ _ _ 2 H3 L2 B2) as [L3 B3].
  destruct (rule_step_budget _ _ _ 3 H4 L3 B3) as [L4 B4].
  destruct (rule_step_budget _ _ _ 4 H5 L4 B4) as [L5 B5].
  destruct (rule_step_budget _ _ _ 5 H6 L5 B5) as [L6 B6].
  destruct (rule_step_budget _ _ _ 6 H7 L6 B6) as [L7 B7].
  destruct (rule_step_budget _ _ _ 7 H8 L7 B7) as [L8 B8].
  destruct (rule_step_budget _ _ _ 8 H9 L8 B8) as [L9 B9].
  exact (rule_step_budget _ _ _ 9 H10 L9 B9).
Qed.

(** X1. A report lists at most ten triggers and its strength is at
    most 20 points per listed trigger; a report without triggers has
    strength 0 and recommends HOLD. *)
Theorem report_strength_needs_triggers (df : DataFrame) (r : SignalReport) :
  get_daytrading_signals df = Ok (Some r) ->
  (length (signals r) <= 10)%nat
  /\ Z.abs (strength r) <= 20 * Z.of_nat (length (signals r))
  /\ (signals r = [] -> strength r = 0 /\ recommendation r = HOLD).
Proof.
  intros H.
  destruct (report_budget df r H) as (st & -> & -> & -> & Hlen & Habs).
  pose proof (clamp_strength_abs (st_score st)) as Hclamp.
  split; [exact Hlen|]. split; [lia|].
  intros Hnone. rewrite Hnone in Habs. simpl in Habs.
  assert (Hz : st_score st = 0) by lia.
  rewrite Hz. split; reflexivity.
Qed.

Lemma report_strength_needs_triggers_witness :
  exists r,
    get_daytrading_signals [Samples.cross_prev; Samples.cross_latest]
      = Ok (Some r)
    /\ (length (signals r) <= 10)%nat
    /\ Z.abs (strength r) <= 20 * Z.of_nat (length (signals r)).
Proof.
  eexists. split; [vm_compute; reflexivity|].
  match goal with
  | |- context [strength ?r] =>
      destruct (report_strength_needs_triggers
                  [Samples.cross_prev; Samples.cross_latest] r
                  ltac:(vm_compute; reflexivity)) as (Hl & Hb & _)
  end.
  split; [exact Hl|exact Hb].
Defined.

(** ** Signal composer: exceptions *)

Section SignalErrors.

Lemma iloc_neg_Ok (df : DataFrame) (k : nat) :
  (1 <= k <= length df)%nat -> exists r, iloc_neg df k = Ok r /\ r ∈ df.
Proof.
  intros Hk. unfold iloc_neg.
  destruct (lookup_lt_is_Some_2 (rev df) (pred k)) as [r Hr];
    [rewrite length_rev; lia|].
  rewrite Hr. exists r. split; [reflexivity|].
  apply list_elem_of_lookup_2 in Hr. apply list_elem_of_In in Hr.
  apply list_elem_of_In. apply in_rev. exact Hr.
Qed.

Ltac raise_inv H :=
  unfold cmp, cmp_const, py_and, getitem in H; simpl in H;
  repeat match type of H with
         | context [row_cols ?r !! ?c] =>
             destruct (row_cols r !! c) eqn:?; simpl in H
         | context [if ?b then _ else _] => destruct b eqn:?; simpl in H
         end;
  try discriminate;
  (injection H as <-; eexists; (split; [reflexivity|set_solver])).

Lemma rule_macd_raise (latest prev : Row) (st : SigState) (e : exn) :
  rule_macd latest prev st = Raise e -> column_error e.
Proof. unfold rule_macd. intros H. raise_inv H. Qed.

Lemma rule_kd_raise (latest prev : Row) (st : SigState) (e : exn) :
  rule_kd latest prev st = Raise e -> column_error e.
Proof. unfold rule_kd. intros H. raise_inv H. Qed.

Lemma rule_rsi_raise (latest : Row) (st : SigState) (e : exn) :
  rule_rsi latest st = Raise e -> column_error e.
Proof. unfold rule_rsi. intros H. raise_inv H. Qed.

Lemma rule_williams_raise (latest : Row) (st : SigState) (e : exn) :
  rule_williams latest st = Raise e -> column_error e.
Proof. unfold rule_williams. intros H. raise_inv H. Qed.

Lemma rule_adx_raise (latest : Row) (st : SigState) (e : exn) :
  rule_adx latest st = Raise e -> column_error e.
Proof. unfold rule_adx. intros H. raise_inv H. Qed.

Lemma rule_cci_raise (latest : Row) (st : SigState) (e : exn) :
  rule_cci latest st = Raise e -> column_error e.
Proof. unfold rule_cci. intros H. raise_inv H. Qed.

Lemma rule_obv_raise (df : DataFrame) (latest : Row) (st : SigState) (e : exn) :
  rule_obv df latest st = Raise e -> column_error e.
Proof.
  unfold rule_obv. intros H.
  destruct (bool_decide _) eqn:E; [|discriminate].
  apply bool_decide_eq_true in E.
  destruct (iloc_neg_Ok df 5 ltac:(lia)) as (back & Hback & _).
  rewrite Hback in H. simpl in H. raise_inv H.
Qed.

Lemma rule_bollinger_raise (latest : Row) (st : SigState) (e : exn) :
  rule_bollinger latest st = Raise e -> column_error e.
Proof. unfold rule_bollinger. intros H. raise_inv H. Qed.

Lemma rule_volume_raise (latest : Row) (st : SigState) (e : exn) :
  rule_volume latest st = Raise e -> column_error e.
Proof. unfold rule_volume. intros H. raise_inv H. Qed.

Lemma rule_roc_raise (latest : Row) (st : SigState) (e : exn) :
  rule_roc latest st = Raise e -> column_error e.
Proof. unfold rule_roc. intros H. raise_inv H. Qed.

End SignalErrors.

(** X2. The signal composer raises nothing but a [KeyError] for one of
    the sixteen columns it reads: no [IndexError], whatever the length
    of the frame. *)
Theorem signals_raise_only_missing_column (df : DataFrame) (e : exn) :
  get_daytrading_signals df = Raise e -> column_error e.
Proof.
  unfold get_daytrading_signals.
  destruct (df_empty df); [discriminate|]. simpl.
  destruct (bool_decide _) eqn:E; [discriminate|].
  apply bool_decide_eq_false in E.
  destruct (iloc_neg_Ok df 1 ltac:(lia)) as (latest & -> & _).
  destruct (iloc_neg_Ok df 2 ltac:(lia)) as (prev & -> & _).
  simpl. intros H.
  apply bind_Raise in H as [H|(close & _ & H)].
  { unfold getitem in H. destruct (row_cols latest !! "close"); [discriminate|].
    injection H as <-. eexists. split; [reflexivity|set_solver]. }
  apply bind_Raise in H as [H|(? & _ & H)]; [eauto using rule_macd_raise|].
  apply bind_Raise in H as [H|(? & _ & H)]; [eauto using rule_kd_raise|].
  apply bind_Raise in H as [H|(? & _ & H)]; [eauto using rule_rsi_raise|].
  apply bind_Raise in H as [H|(? & _ & H)]; [eauto using rule_williams_raise|].
  apply bind_Raise in H as [H|(? & _ & H)]; [eauto using rule_adx_raise|].
  apply bind_Raise in H as [H|(? & _ & H)]; [eauto using rule_cci_raise|].
  apply bind_Raise in H as [H|(? & _ & H)]; [eauto using rule_obv_raise|].
  apply bind_Raise in H as [H|(? & _ & H)]; [eauto using rule_bollinger_raise|].
  apply bind_Raise in H as [H|(? & _ & H)]; [eauto using rule_volume_raise|].
  apply bind_Raise in H as [H|(? & _ & H)]; [eauto using rule_roc_raise|].
  discriminate.
Qed.

Lemma signals_raise_only_missing_column_witness :
  get_daytrading_signals
    [mkRow None {["close" := of_Z 10]}; mkRow None {["close" := of_Z 11]}]
  = Raise (KeyError "MACD")
  /\ column_error (KeyError "MACD").
Proof.
  split; [vm_compute; reflexivity|].
  apply (signals_raise_only_missing_column
           [mkRow None {["close" := of_Z 10]};
            mkRow None {["close" := of_Z 11]}]).
  vm_compute. reflexivity.
Defined.

(** ** Signal composer: a report whenever the columns are there *)

Section SignalTotal.

Ltac total_rule Hl Hp :=
  unfold cmp, cmp_const, py_and, getitem;
  repeat match goal with
         | |- context [row_cols ?r !! ?c] =>
             first [ destruct (Hl c ltac:(set_solver)) as [? ->]
                   | destruct (Hp c ltac:(set_solver)) as [? ->] ];
             simpl
         end;
  repeat match goal with
         | |- context [if ?b then _ else _] => destruct b; simpl
         end;
  eexists; reflexivity.

Variables latest prev : Row.
Hypothesis Hl : has_columns signal_columns latest.
Hypothesis Hp : has_columns signal_columns prev.

Lemma rule_macd_total (st : SigState) :
  exists st', rule_macd latest prev st = Ok st'.
Proof. unfold rule_macd. total_rule Hl Hp. Qed.

Lemma rule_kd_total (st : SigState) :
  exists st', rule_kd latest prev st = Ok st'.
Proof. unfold rule_kd. total_rule Hl Hp. Qed.

Lemma rule_rsi_total (st : SigState) : exists st', rule_rsi latest st = Ok st'.
Proof. unfold rule_rsi. total_rule Hl Hp. Qed.

Lemma rule_williams_total (st : SigState) :
  exists st', rule_williams latest st = Ok st'.
Proof. unfold rule_williams. total_rule Hl Hp. Qed.

Lemma rule_adx_total (st : SigState) : exists st', rule_adx latest st = Ok st'.
Proof. unfold rule_adx. total_rule Hl Hp. Qed.

Lemma rule_cci_total (st : SigState) : exists st', rule_cci latest st = Ok st'.
Proof. unfold rule_cci. total_rule Hl Hp. Qed.

(** [prev] stands for the row five back here. *)
Lemma rule_obv_total (df : DataFrame) (st : SigState) :
  ((5 <= length df)%nat -> iloc_neg df 5 = Ok prev) ->
  exists st', rule_obv df latest st = Ok st'.
Proof.
  intros Hback. unfold rule_obv.
  destruct (bool_decide _) eqn:E; [|eexists; reflexivity].
  apply bool_decide_eq_true in E. rewrite (Hback E). simpl.
  total_rule Hl Hp.
Qed.

Lemma rule_bollinger_total (st : SigState) :
  exists st', rule_bollinger latest st = Ok st'.
Proof. unfold rule_bollinger. total_rule Hl Hp. Qed.

Lemma rule_volume_total (st : SigState) :
  exists st', rule_volume latest st = Ok st'.
Proof. unfold rule_volume. total_rule Hl Hp. Qed.

Lemma rule_roc_total (st : SigState) : exists st', rule_roc latest st = Ok st'.
Proof. unfold rule_roc. total_rule Hl Hp. Qed.

End SignalTotal.

Lemma has_columns_not_empty (r : Row) :
  has_columns signal_columns r -> row_empty r = false.
Proof.
  intros H. destruct (H "close" ltac:(set_solver)) as [v Hv].
  unfold row_empty. apply andb_false_iff. right.
  apply bool_decide_eq_false. intros Hempty.
  rewrite Hempty, lookup_empty in Hv. discriminate.
Qed.

(** X3. On a frame of at least two rows that all carry the sixteen
    columns the composer reads, a report is always produced. *)
Theorem signals_total_on_complete_frames (df : DataFrame) :
  (2 <= length df)%nat ->
  Forall (has_columns signal_columns) df ->
  exists r, get_daytrading_signals df = Ok (Some r).
Proof.
  intros Hlen Hall. rewrite Forall_forall in Hall.
  destruct (iloc_neg_Ok df 1 ltac:(lia)) as (latest & Hlatest & Hin1).
  destruct (iloc_neg_Ok df 2 ltac:(lia)) as (prev & Hprev & Hin2).
  pose proof (Hall latest Hin1) as Hl. pose proof (Hall prev Hin2) as Hp.
  unfold get_daytrading_signals.
  assert (Hne : df_empty df = false).
  { unfold df_empty. apply not_true_iff_false. intros Hf.
    rewrite forallb_forall in Hf. apply list_elem_of_In in Hin1.
    specialize (Hf latest Hin1).
    rewrite (has_columns_not_empty latest Hl) in Hf. discriminate. }
  rewrite Hne, bool_decide_eq_false_2 by lia. simpl.
  rewrite Hlatest, Hprev. simpl.
  destruct (Hl "close" ltac:(set_solver)) as [c Hc].
  unfold getitem at 1. rewrite Hc. simpl.
  destruct (rule_macd_total latest prev Hl Hp (mkSigState [] 0)) as [s1 ->].
  simpl. destruct (rule_kd_total latest prev Hl Hp s1) as [s2 ->].
  simpl. destruct (rule_rsi_total latest prev Hl Hp s2) as [s3 ->].
  simpl. destruct (rule_williams_total latest prev Hl Hp s3) as [s4 ->].
  simpl. destruct (rule_adx_total latest prev Hl Hp s4) as [s5 ->].
  simpl. destruct (rule_cci_total latest prev Hl Hp s5) as [s6 ->].
  simpl.
  assert (Hobv : exists s7, rule_obv df latest s6 = Ok s7).
  { destruct (decide (5 <= length df)%nat) as [H5|H5].
    - destruct (iloc_neg_Ok df 5 ltac:(lia)) as (back & Hback & Hin5).
      apply (rule_obv_total latest back Hl (Hall back Hin5) df s6).
      intros _. exact Hback.
    - apply (rule_obv_total latest prev Hl Hp df s6). intros H. contradiction. }
  destruct Hobv as [s7 ->].
  simpl. destruct (rule_bollinger_total latest prev Hl Hp s7) as [s8 ->].
  simpl. destruct (rule_volume_total latest prev Hl Hp s8) as [s9 ->].
  simpl. destruct (rule_roc_total latest prev Hl Hp s9) as [s10 ->].
  simpl. eexists. reflexivity.
Qed.

Lemma signals_total_on_complete_frames_witness :
  exists r,
    get_daytrading_signals [Samples.cross_prev; Samples.cross_latest]
    = Ok (Some r).
Proof.
  apply signals_total_on_complete_frames; [simpl; lia|].
  repeat constructor; intros c Hc;
    repeat (apply elem_of_cons in Hc as [->|Hc];
            [vm_compute; eexists; reflexivity|]);
    inversion Hc.
Defined.

(** ** Signal composer: an undefined OBV *)

(** X4. With at least five rows and the close above the close five
    rows back, an OBV that is NaN on the latest row or on the row five
    back makes the OBV rule report a bearish divergence: 15 points are
    taken off and the top-divergence label is listed. *)
Theorem obv_nan_reads_as_bearish_divergence
    (df : DataFrame) (latest back : Row) (st : SigState)
    (c cb o ob : fval) :
  (5 <= length df)%nat ->
  iloc_neg df 5 = Ok back ->
  row_cols latest !! "close" = Some c ->
  row_cols back !! "close" = Some cb ->
  row_cols latest !! "OBV" = Some o ->
  row_cols back !! "OBV" = Some ob ->
  fgt c cb = true ->
  isnan o = true \/ isnan ob = true ->
  rule_obv df latest st = Ok (fire "⚠️ OBV 頂背離 (賣出)" (-15) st).
Proof.
  intros Hlen Hback Hc Hcb Ho Hob Hup Hnan.
  unfold rule_obv, cmp, getitem.
  rewrite (bool_decide_eq_true_2 _ Hlen), Hback. simpl.
  rewrite Hc, Hcb, Ho, Hob. simpl. rewrite Hup.
  assert (Hobv : fgt o ob = false)
    by (destruct Hnan as [H|H]; destruct o, ob; try discriminate; reflexivity).
  rewrite Hobv. reflexivity.
Qed.

Lemma obv_nan_reads_as_bearish_divergence_witness :
  rule_obv MoreSamples.rising_obv_nan
    (MoreSamples.plain_row 19724 14 NaN) (mkSigState [] 0)
  = Ok (fire "⚠️ OBV 頂背離 (賣出)" (-15) (mkSigState [] 0)).
Proof.
  apply (obv_nan_reads_as_bearish_divergence MoreSamples.rising_obv_nan
           (MoreSamples.plain_row 19724 14 NaN)
           (MoreSamples.plain_row 19720 10 (of_Z 100)) (mkSigState [] 0)
           (of_Z 14) (of_Z 10) NaN (of_Z 100));
    try reflexivity; first [left; reflexivity | simpl; lia].
Defined.

(** ** Crossover markers *)

Section Crossovers.
Import Chart.

Variables a b val : string.

Lemma crossed_up_not_down (prev cur : Row) :
  crossed_up a b prev cur = Ok true -> crossed_down a b prev cur = Ok false.
Proof.
  unfold crossed_up, crossed_down, py_and, cmp, getitem.
  destruct (row_cols prev !! a), (row_cols prev !! b); simpl; try discriminate.
  destruct (fle f f0); simpl; [|discriminate].
  destruct (row_cols cur !! a), (row_cols cur !! b); simpl; try discriminate.
  intros H. injection H as H.
  unfold fgt in H. rewrite (flt_asym _ _ H).
  destruct (fge f f0); reflexivity.
Qed.

Lemma result_bind_Ok {A B} (x : A) (f : A -> result B) : Ok x ≫= f = f x.
Proof. reflexivity. Qed.

Lemma detect_loop_cons2 (prev cur : Row) (rest : list Row)
    (golden death : list Mark) :
  detect_loop a b val (prev :: cur :: rest) golden death
  = (up ← crossed_up a b prev cur;
     golden' ← (if up : bool
                then m ← mark val cur; mret (golden ++ [m])
                else mret golden);
     down ← crossed_down a b prev cur;
     death' ← (if down : bool
               then m ← mark val cur; mret (death ++ [m])
               else mret death);
     detect_loop a b val (cur :: rest) golden' death').
Proof. reflexivity. Qed.

(** One step of the loop, as the lists it adds. *)
Lemma detect_step (prev cur : Row) (golden death golden' death' : list Mark)
    (up down : bool) :
  crossed_up a b prev cur = Ok up ->
  (if up then m ← mark val cur; mret (golden ++ [m]) else mret golden)
    = Ok golden' ->
  crossed_down a b prev cur = Ok down ->
  (if down then m ← mark val cur; mret (death ++ [m]) else mret death)
    = Ok death' ->
  exists g1 d1,
    golden' = golden ++ g1 /\ death' = death ++ d1
    /\ (length g1 + length d1 <= 1)%nat
    /\ (forall g0 d0,
           (if up then m ← mark val cur; mret (g0 ++ [m]) else mret g0)
             = Ok (g0 ++ g1)
           /\ (if down then m ← mark val cur; mret (d0 ++ [m]) else mret d0)
              = Ok (d0 ++ d1)).
Proof.
  intros Hup Hg Hdown Hd.
  destruct up.
  - rewrite (crossed_up_not_down _ _ Hup) in Hdown. injection Hdown as <-.
    injection Hd as <-.
    apply bind_Ok in Hg as (m & Hm & Hg). injection Hg as <-.
    exists [m], []. rewrite app_nil_r. repeat split; [simpl; lia| |].
    + rewrite Hm. reflexivity.
    + rewrite app_nil_r. reflexivity.
  - injection Hg as <-. destruct down.
    + apply bind_Ok in Hd as (m & Hm & Hd). injection Hd as <-.
      exists [], [m]. rewrite app_nil_r. repeat split; [simpl; lia| |].
      * rewrite app_nil_r. reflexivity.
      * rewrite Hm. reflexivity.
    + injection Hd as <-. exists [], []. rewrite !app_nil_r.
      repeat split; [simpl; lia|rewrite app_nil_r..]; reflexivity.
Qed.

(** The loop only appends, by at most one mark per bar after the
    first, and what it appends does not depend on what was there. *)
Lemma detect_loop_appends (rows : list Row) :
  forall golden death golden' death',
    detect_loop a b val rows golden death = Ok (golden', death') ->
    exists g1 d1,
      golden' = golden ++ g1 /\ death' = death ++ d1
      /\ (length g1 + length d1 <= length rows - 1)%nat
      /\ forall g0 d0,
           detect_loop a b val rows g0 d0 = Ok (g0 ++ g1, d0 ++ d1).
Proof.
  induction rows as [|prev rest IH]; intros golden death golden' death' H.
  - injection H as <- <-. exists [], []. rewrite !app_nil_r.
    repeat split; [simpl; lia|]. intros. rewrite !app_nil_r. reflexivity.
  - destruct rest as [|cur rest'].
    + injection H as <- <-. exists [], []. rewrite !app_nil_r.
      repeat split; [simpl; lia|]. intros. rewrite !app_nil_r. reflexivity.
    + rewrite detect_loop_cons2 in H.
      apply bind_Ok in H as (up & Hup & H).
      apply bind_Ok in H as (g' & Hg & H).
      apply bind_Ok in H as (down & Hdown & H).
      apply bind_Ok in H as (d' & Hd & H).
      destruct (detect_step prev cur golden death g' d' up down Hup Hg Hdown Hd)
        as (g1 & d1 & -> & -> & Hlen1 & Hany).
      destruct (IH _ _ _ _ H) as (g2 & d2 & -> & -> & Hlen2 & Hrest).
      exists (g1 ++ g2), (d1 ++ d2). rewrite !app_assoc.
      split; [reflexivity|]. split; [reflexivity|].
      split; [rewrite !length_app; simpl in *; lia|].
      intros g0 d0. rewrite detect_loop_cons2, Hup, result_bind_Ok.
      destruct (Hany g0 d0) as [-> Hd0].
      rewrite result_bind_Ok, Hdown, result_bind_Ok, Hd0, result_bind_Ok.
      rewrite (Hrest (g0 ++ g1) (d0 ++ d1)), !app_assoc. reflexivity.
Qed.

(** The marks found on a frame are kept when a bar is appended. *)
Lemma detect_loop_snoc (rows : list Row) (r : Row) :
  forall golden death golden' death',
    detect_loop a b val (rows ++ [r]) golden death = Ok (golden', death') ->
    exists g d,
      detect_loop a b val rows golden death = Ok (g, d)
      /\ g `prefix_of` golden' /\ d `prefix_of` death'.
Proof.
  induction rows as [|prev rest IH]; intros golden death golden' death' H.
  - injection H as <- <-. exists golden, death. repeat split; reflexivity.
  - destruct rest as [|cur rest'].
    + destruct (detect_loop_appends _ _ _ _ _ H) as (g1 & d1 & -> & -> & _).
      exists golden, death. split; [reflexivity|].
      split; apply prefix_app_r; reflexivity.
    + change ((prev :: cur :: rest') ++ [r])
        with (prev :: (cur :: rest') ++ [r]) in H.
      change ((cur :: rest') ++ [r]) with (cur :: (rest' ++ [r])) in H.
      rewrite detect_loop_cons2 in H.
      apply bind_Ok in H as (up & Hup & H).
      apply bind_Ok in H as (g' & Hg & H).
      apply bind_Ok in H as (down & Hdown & H).
      apply bind_Ok in H as (d' & Hd & H).
      change (cur :: rest' ++ [r]) with ((cur :: rest') ++ [r]) in H.
      destruct (IH _ _ _ _ H) as (g & d & Hrun & Hpg & Hpd).
      exists g, d. split; [|split; assumption].
      rewrite detect_loop_cons2, Hup, result_bind_Ok, Hg, result_bind_Ok.
      rewrite Hdown, result_bind_Ok, Hd, result_bind_Ok. exact Hrun.
Qed.

End Crossovers.

(** X5. The three crossover detectors put at most one mark on a bar:
    golden and death marks together never outnumber the bars after the
    first. *)
Theorem crossovers_at_most_one_mark_per_bar
    (a b val : string) (df : DataFrame) (golden death : list Chart.Mark) :
  Chart.detect_crossovers a b val df = Ok (golden, death) ->
  (length golden + length death <= length df - 1)%nat.
Proof.
  unfold Chart.detect_crossovers. intros H.
  destruct (_ && _).
  - destruct (detect_loop_appends a b val df _ _ _ _ H)
      as (g1 & d1 & -> & -> & Hlen & _).
    exact Hlen.
  - injection H as <- <-. simpl. lia.
Qed.

Lemma crossovers_at_most_one_mark_per_bar_witness :
  exists golden death,
    Chart.detect_macd_crossovers MoreSamples.zigzag = Ok (golden, death)
    /\ length golden = 1%nat /\ length death = 1%nat
    /\ (length golden + length death <= length MoreSamples.zigzag - 1)%nat.
Proof.
  do 2 eexists. split; [vm_compute; reflexivity|].
  split; [reflexivity|]. split; [reflexivity|].
  eapply (crossovers_at_most_one_mark_per_bar "MACD" "MACD_signal" "MACD").
  vm_compute. reflexivity.
Defined.

Lemma has_column_app (df : DataFrame) (r : Row) (c : string) :
  Chart.has_column (df ++ [r]) c = true -> Chart.has_column df c = true.
Proof.
  unfold Chart.has_column. rewrite forallb_app.
  intros H. apply andb_true_iff in H as [H _]. exact H.
Qed.

(** X6. Appending a bar to a frame leaves the crossover marks found so
    far in place: the marks of the shorter frame are a prefix of the
    marks of the longer one. *)
Theorem crossovers_stable_under_append
    (a b val : string) (df : DataFrame) (r : Row)
    (golden' death' : list Chart.Mark) :
  Chart.has_column (df ++ [r]) a = true ->
  Chart.has_column (df ++ [r]) b = true ->
  Chart.detect_crossovers a b val (df ++ [r]) = Ok (golden', death') ->
  exists golden death,
    Chart.detect_crossovers a b val df = Ok (golden, death)
    /\ golden `prefix_of` golden' /\ death `prefix_of` death'.
Proof.
  intros Ha Hb. unfold Chart.detect_crossovers.
  rewrite Ha, Hb, (has_column_app _ _ _ Ha), (has_column_app _ _ _ Hb).
  simpl. apply detect_loop_snoc.
Qed.

Lemma crossovers_stable_under_append_witness :
  exists golden death,
    Chart.detect_macd_crossovers
      [MoreSamples.macd_row 19720 (-1) 0; MoreSamples.macd_row 19721 1 0]
    = Ok (golden, death)
    /\ length golden = 1%nat /\ death = [].
Proof.
  destruct (crossovers_stable_under_append "MACD" "MACD_signal" "MACD"
              [MoreSamples.macd_row 19720 (-1) 0;
               MoreSamples.macd_row 19721 1 0]
              (MoreSamples.macd_row 19722 (-1) 0)
              [(mkTimestamp 19721 0, of_Z 1)]
              [(mkTimestamp 19722 0, of_Z (-1))])
    as (g & d & Hrun & _ & _);
    [vm_compute; reflexivity..|].
  exists g, d. split; [exact Hrun|].
  vm_compute in Hrun. injection Hrun as <- <-. split; reflexivity.
Defined.

(** ** The composer and the chart agree on MACD crossovers *)

Section MacdAgreement.
Import Chart.

Lemma macd_labels_apart (l : string) :
  l ∈ macd_labels -> l ∉ other_labels.
Proof.
  intros Hl.
  repeat (apply elem_of_cons in Hl as [->|Hl];
          [apply (bool_decide_eq_false_1 (_ ∈ other_labels));
           vm_compute; reflexivity|]).
  inversion Hl.
Qed.

Lemma other_step_keeps_macd (st st' : SigState) (l : string) :
  rule_step other_labels st st' -> l ∈ macd_labels ->
  (l ∈ st_signals st' <-> l ∈ st_signals st).
Proof.
  intros [->|(label & delta & -> & Hlabel & _)] Hl; [reflexivity|].
  unfold fire; simpl. rewrite elem_of_app, list_elem_of_singleton.
  split; [|auto].
  intros [H | ->]; [exact H|].
  exfalso. exact (macd_labels_apart _ Hl Hlabel).
Qed.

(** What [rule_macd] lists, against what the detector finds on the
    same two bars. *)
Lemma rule_macd_vs_detector (latest prev : Row) (st1 : SigState)
    (golden death : list Mark) :
  rule_macd latest prev (mkSigState [] 0) = Ok st1 ->
  detect_macd_crossovers [prev; latest] = Ok (golden, death) ->
  ("MACD 金叉 (買進)" ∈ st_signals st1 <-> golden <> [])
  /\ ("MACD 死叉 (賣出)" ∈ st_signals st1 <-> death <> []).
Proof.
  unfold rule_macd, detect_macd_crossovers, detect_crossovers, has_column,
    detect_loop, crossed_up, crossed_down, mark, date_cell, py_and, cmp,
    getitem.
  cbn [forallb].
  destruct (row_cols latest !! "MACD") as [m|],
           (row_cols latest !! "MACD_signal") as [s|]; simpl;
    try discriminate;
  destruct (row_cols prev !! "MACD") as [pm|],
           (row_cols prev !! "MACD_signal") as [ps|]; simpl;
    try discriminate;
  unfold fgt, fge;
  destruct (flt s m) eqn:Eup, (flt m s) eqn:Edown; simpl;
    try (rewrite (flt_asym _ _ Eup) in Edown; discriminate);
    try discriminate;
  try destruct (fle pm ps) eqn:Ele; try destruct (fle ps pm) eqn:Ege; simpl;
    try discriminate;
  try destruct (row_date latest); simpl; try discriminate;
  intros H1 H2; injection H1 as <-; injection H2 as <- <-; simpl;
  split; split; intros Hx;
    first [ congruence
          | left
          | apply elem_of_nil in Hx; contradiction
          | apply list_elem_of_singleton in Hx; discriminate ].
Qed.

End MacdAgreement.

(** X7. The signal composer lists the MACD golden cross exactly when
    [detect_macd_crossovers], run on the last two bars, marks a golden
    cross, and the death cross exactly when it marks a death cross. *)
Theorem composer_and_chart_agree_on_macd
    (front : DataFrame) (prev latest : Row) (r : SignalReport)
    (golden death : list Chart.Mark) :
  get_daytrading_signals (front ++ [prev; latest]) = Ok (Some r) ->
  Chart.detect_macd_crossovers [prev; latest] = Ok (golden, death) ->
  ("MACD 金叉 (買進)" ∈ signals r <-> golden <> [])
  /\ ("MACD 死叉 (賣出)" ∈ signals r <-> death <> []).
Proof.
  intros Hrep Hdet.
  destruct (report_run _ r Hrep)
    as (latest' & prev' & st1 & st & Hl & Hp & H1 & Hrest & Hsig & _).
  destruct (iloc_neg_last front prev latest) as (Hl' & Hp').
  assert (latest' = latest) as -> by congruence.
  assert (prev' = prev) as -> by congruence.
  destruct Hrest as (s2 & s3 & s4 & s5 & s6 & s7 & s8 & s9
                     & H2 & H3 & H4 & H5 & H6 & H7 & H8 & H9 & H10).
  destruct (rule_macd_vs_detector latest prev st1 golden death H1 Hdet)
    as (Hg & Hd).
  assert (Hkeep : forall l, l ∈ macd_labels ->
                    (l ∈ signals r <-> l ∈ st_signals st1)).
  { intros l Hin. rewrite Hsig.
    rewrite (other_step_keeps_macd _ _ l H10 Hin),
      (other_step_keeps_macd _ _ l H9 Hin),
      (other_step_keeps_macd _ _ l H8 Hin),
      (other_step_keeps_macd _ _ l H7 Hin),
      (other_step_keeps_macd _ _ l H6 Hin),
      (other_step_keeps_macd _ _ l H5 Hin),
      (other_step_keeps_macd _ _ l H4 Hin),
      (other_step_keeps_macd _ _ l H3 Hin),
      (other_step_keeps_macd _ _ l H2 Hin).
    reflexivity. }
  split.
  - etransitivity; [apply Hkeep; left|exact Hg].
  - etransitivity; [apply Hkeep; right; left|exact Hd].
Qed.

Lemma composer_and_chart_agree_on_macd_witness :
  exists r golden death,
    get_daytrading_signals ([] ++ [Samples.cross_prev; Samples.cross_latest])
    = Ok (Some r)
    /\ Chart.detect_macd_crossovers [Samples.cross_prev; Samples.cross_latest]
       = Ok (golden, death)
    /\ ("MACD 金叉 (買進)" ∈ signals r <-> golden <> []).
Proof.
  do 3 eexists. split; [vm_compute; reflexivity|].
  split; [vm_compute; reflexivity|].
  eapply proj1.
  eapply (composer_and_chart_agree_on_macd [] Samples.cross_prev
            Samples.cross_latest); vm_compute; reflexivity.
Defined.

(** ** Level finder: levels on the right side of the price *)

Section Around.

Variable c : Qc.













End Around.





(** ** Level finder: running the post-processing again *)

Section PostProcessing.

Lemma fle_not_flt (x y : fval) : fle y x = true -> flt x y = false.
Proof.
  destruct x, y; simpl; try congruence.
  intros H. apply bool_decide_eq_true in H. apply bool_decide_eq_false.
  apply Qcle_not_lt. exact H.
Qed.

Lemma sorted_desc_fixed (l : list Level) :
  StronglySorted price_desc l -> sorted_desc l = l.
Proof.
  induction 1 as [|x l Hs IH Hx]; [reflexivity|].
  simpl. rewrite IH. destruct Hx as [|y ys Hy _]; [reflexivity|].
  simpl. rewrite (fle_not_flt _ _ Hy). reflexivity.
Qed.

Lemma sorted_asc_fixed (l : list Level) :
  StronglySorted price_asc l -> sorted_asc l = l.
Proof.
  induction 1 as [|x l Hs IH Hx]; [reflexivity|].
  simpl. rewrite IH. destruct Hx as [|y ys Hy _]; [reflexivity|].
  simpl. rewrite (fle_not_flt _ _ Hy). reflexivity.
Qed.

Lemma remove_close_levels_fixed (tol : fval) (l : list Level) :
  Sorted (far_apart tol) l -> remove_close_levels l tol = l.
Proof.
  induction 1 as [|x l Hs IH Hx]; [reflexivity|].
  destruct Hx as [|y ys Hy]; [reflexivity|].
  rewrite remove_close_levels_cons2. unfold far_apart in Hy. rewrite Hy.
  rewrite IH. reflexivity.
Qed.

End PostProcessing.

(** X9. Sorting and merging a second time changes nothing: the merged
    list is a fixed point of the merge, and for candidates with defined
    prices the whole post-processing of support (and of resistance)
    applied to its own output returns that output. *)
Theorem level_postprocessing_idempotent (l : list Level) (tol : fval) :
  Forall priced l ->
  remove_close_levels (remove_close_levels l tol) tol
  = remove_close_levels l tol
  /\ remove_close_levels
       (sorted_desc (remove_close_levels (sorted_desc l) tol)) tol
     = remove_close_levels (sorted_desc l) tol
  /\ remove_close_levels
       (sorted_asc (remove_close_levels (sorted_asc l) tol)) tol
     = remove_close_levels (sorted_asc l) tol.
Proof.
  intros Hl.
  split; [apply remove_close_levels_fixed, remove_close_levels_far|].
  split.
  - rewrite (sorted_desc_fixed (remove_close_levels (sorted_desc l) tol)).
    + apply remove_close_levels_fixed, remove_close_levels_far.
    + eapply StronglySorted_sublist; [apply remove_close_levels_sublist|].
      apply sorted_desc_sorted. exact Hl.
  - rewrite (sorted_asc_fixed (remove_close_levels (sorted_asc l) tol)).
    + apply remove_close_levels_fixed, remove_close_levels_far.
    + eapply StronglySorted_sublist; [apply remove_close_levels_sublist|].
      apply sorted_asc_sorted. exact Hl.
Qed.

Lemma level_postprocessing_idempotent_witness :
  remove_close_levels
    (sorted_asc
       (remove_close_levels
          (sorted_asc [mkLevel (of_Z 101) "b" "medium";
                       mkLevel (of_frac 1003 10) "c" "medium";
                       mkLevel (of_Z 100) "a" "strong"])
          tolerance_default))
    tolerance_default
  = remove_close_levels
      (sorted_asc [mkLevel (of_Z 101) "b" "medium";
                   mkLevel (of_frac 1003 10) "c" "medium";
                   mkLevel (of_Z 100) "a" "strong"])
      tolerance_default.
Proof.
  apply (level_postprocessing_idempotent
           [mkLevel (of_Z 101) "b" "medium";
            mkLevel (of_frac 1003 10) "c" "medium";
            mkLevel (of_Z 100) "a" "strong"] tolerance_default).
  repeat constructor.
Defined.

(** ** Level finder: exceptions *)

Section LevelErrors.








End LevelErrors.



(** ** Signal composer: undefined readings *)

Section Undefined.
Context (latest : Row).

Ltac silent H Hn :=
  unfold cmp, cmp_const, py_and, getitem in H; rewrite ?Hn in H;
  repeat (match type of H with
          | context [row_cols ?r !! ?c] =>
              destruct (row_cols r !! c) as [[]|]
          end; simpl in H);
  try discriminate; injection H as <-; reflexivity.

Lemma rule_macd_nan (prev : Row) (st st' : SigState) :
  nan_in latest "MACD" -> rule_macd latest prev st = Ok st' -> st' = st.
Proof. unfold nan_in, rule_macd. intros Hn H. silent H Hn. Qed.

Lemma rule_kd_nan (prev : Row) (st st' : SigState) :
  nan_in latest "KD_K" -> rule_kd latest prev st = Ok st' -> st' = st.
Proof. unfold nan_in, rule_kd. intros Hn H. silent H Hn. Qed.

Lemma rule_rsi_nan (st st' : SigState) :
  nan_in latest "RSI" -> rule_rsi latest st = Ok st' -> st' = st.
Proof. unfold nan_in, rule_rsi. intros Hn H. silent H Hn. Qed.

Lemma rule_williams_nan (st st' : SigState) :
  nan_in latest "Williams_R" -> rule_williams latest st = Ok st' -> st' = st.
Proof. unfold nan_in, rule_williams. intros Hn H. silent H Hn. Qed.

Lemma rule_adx_nan (st st' : SigState) :
  nan_in latest "ADX" -> rule_adx latest st = Ok st' -> st' = st.
Proof. unfold nan_in, rule_adx. intros Hn H. silent H Hn. Qed.

Lemma rule_cci_nan (st st' : SigState) :
  nan_in latest "CCI" -> rule_cci latest st = Ok st' -> st' = st.
Proof. unfold nan_in, rule_cci. intros Hn H. silent H Hn. Qed.

Lemma rule_bollinger_nan (st st' : SigState) :
  nan_in latest "BB_upper" -> nan_in latest "BB_lower" ->
  rule_bollinger latest st = Ok st' -> st' = st.
Proof.
  unfold nan_in, rule_bollinger. intros Hu Hl H.
  unfold cmp, getitem in H. rewrite Hu, Hl in H.
  destruct (row_cols latest !! "close") as [[]|]; simpl in H;
    try discriminate; injection H as <-; reflexivity.
Qed.

Lemma rule_volume_nan (st st' : SigState) :
  nan_in latest "Volume_Ratio" -> rule_volume latest st = Ok st' -> st' = st.
Proof. unfold nan_in, rule_volume. intros Hn H. silent H Hn. Qed.

Lemma rule_roc_nan (st st' : SigState) :
  nan_in latest "ROC_5" -> rule_roc latest st = Ok st' -> st' = st.
Proof. unfold nan_in, rule_roc. intros Hn H. silent H Hn. Qed.

Lemma rule_obv_cases (df : DataFrame) (st st' : SigState) :
  rule_obv df latest st = Ok st' ->
  st' = st
  \/ (5 <= length df)%nat
     /\ (st' = fire "⚠️ OBV 頂背離 (賣出)" (-15) st
         \/ st' = fire "✅ OBV 底背離 (買進)" 15 st).
Proof.
  unfold rule_obv. intros H.
  destruct (bool_decide (5 <= length df)%nat) eqn:E;
    [apply bool_decide_eq_true in E|injection H as <-; left; reflexivity].
  rule_inv H; first [left; reflexivity|right; split; [exact E|]];
    [left|right]; reflexivity.
Qed.

End Undefined.

(** X11. Undefined readings trigger nothing: when the MACD, KD, RSI,
    Williams %R, ADX, CCI, Bollinger, volume-ratio and ROC cells of the
    latest row are NaN, the report holds no signal with strength 0 and
    HOLD, or, on frames of five rows or more, the single OBV divergence
    signal with strength -15 (SELL) or 15 (BUY). *)
Theorem undefined_readings_trigger_nothing
    (front : DataFrame) (prev latest : Row) (r : SignalReport) :
  get_daytrading_signals (front ++ [prev; latest]) = Ok (Some r) ->
  Forall (nan_in latest) warmup_columns ->
  (signals r = [] /\ strength r = 0 /\ recommendation r = HOLD)
  \/ (3 <= length front)%nat
     /\ ((signals r = ["⚠️ OBV 頂背離 (賣出)"] /\ strength r = -15
          /\ recommendation r = SELL)
         \/ (signals r = ["✅ OBV 底背離 (買進)"] /\ strength r = 15
             /\ recommendation r = BUY)).
Proof.
  intros H Hn. unfold get_daytrading_signals in H.
  destruct (_ || _); [discriminate|].
  destruct (iloc_neg_last front prev latest) as [Hl Hp].
  rewrite Hl, Hp, !result_bind_Ok in H.
  apply bind_Ok in H as (close & _ & H).
  unfold warmup_columns in Hn.
  repeat match goal with
         | Hn : Forall _ (_ :: _) |- _ =>
             apply Forall_cons in Hn as [? Hn]
         end.
  apply bind_Ok in H as (s1 & R1 & H).
  apply rule_macd_nan in R1 as ->; [|assumption].
  apply bind_Ok in H as (s2 & R2 & H).
  apply rule_kd_nan in R2 as ->; [|assumption].
  apply bind_Ok in H as (s3 & R3 & H).
  apply rule_rsi_nan in R3 as ->; [|assumption].
  apply bind_Ok in H as (s4 & R4 & H).
  apply rule_williams_nan in R4 as ->; [|assumption].
  apply bind_Ok in H as (s5 & R5 & H).
  apply rule_adx_nan in R5 as ->; [|assumption].
  apply bind_Ok in H as (s6 & R6 & H).
  apply rule_cci_nan in R6 as ->; [|assumption].
  apply bind_Ok in H as (s7 & R7 & H).
  apply bind_Ok in H as (s8 & R8 & H).
  apply rule_bollinger_nan in R8 as ->; [|assumption..].
  apply bind_Ok in H as (s9 & R9 & H).
  apply rule_volume_nan in R9 as ->; [|assumption].
  apply bind_Ok in H as (s10 & R10 & H).
  apply rule_roc_nan in R10 as ->; [|assumption].
  injection H as <-. simpl.
  apply rule_obv_cases in R7 as [->|[Hlen [->| ->]]].
  - left. repeat split; reflexivity.
  - right. rewrite length_app in Hlen. simpl in Hlen.
    split; [lia|]. left. repeat split; reflexivity.
  - right. rewrite length_app in Hlen. simpl in Hlen.
    split; [lia|]. right. repeat split; reflexivity.
Qed.

Lemma undefined_readings_trigger_nothing_witness :
  exists r,
    get_daytrading_signals
      [MoreSamples.warmup_row 19723 10; MoreSamples.warmup_row 19724 11]
    = Ok (Some r)
    /\ ((signals r = [] /\ strength r = 0 /\ recommendation r = HOLD)
        \/ (3 <= length ([] : DataFrame))%nat
           /\ ((signals r = ["⚠️ OBV 頂背離 (賣出)"] /\ strength r = -15
                /\ recommendation r = SELL)
               \/ (signals r = ["✅ OBV 底背離 (買進)"] /\ strength r = 15
                   /\ recommendation r = BUY))).
Proof.
  eexists. split; [vm_compute; reflexivity|].
  apply (undefined_readings_trigger_nothing []
           (MoreSamples.warmup_row 19723 10)
           (MoreSamples.warmup_row 19724 11));
    [vm_compute; reflexivity|].
  repeat constructor.
Defined.

(** ** SQLite cache: cleaning up *)

Section Cleanup.
Import Db Housekeeping.

Lemma ltb_asym (a b : string) :
  String.ltb a b = true -> String.ltb b a = false.
Proof.
  unfold String.ltb. rewrite (String.compare_antisym b a).
  destruct (String.compare a b); simpl; congruence.
Qed.

End Cleanup.

(** X12. Cleaning up never takes away a news record that a lookup at
    the same moment would return: at the moment the clean-up compares
    the expiry times, the news lookup gives the same answer on the
    cleaned database as on the database before, for every symbol and
    every number of days. *)
Theorem cleanup_keeps_live_news
    (s : Housekeeping.Store) (days : Z) (now_date now_sql now_log : Db.Clock)
    (symbol : string) :
  Db.get_news_cache
    (Housekeeping.st_db
       (Housekeeping.cleanup_old_data s days now_date now_sql now_log))
    symbol now_sql
  = Db.get_news_cache (Housekeeping.st_db s) symbol now_sql.
Proof.
  unfold Housekeeping.cleanup_old_data.
  destruct (_ && _); [|reflexivity].
  unfold Db.get_news_cache. simpl.
  rewrite filter_filter_implied; [reflexivity|].
  intros r [_ Hlive] Hdead. unfold Housekeeping.text_lt in Hdead.
  apply ltb_asym in Hlive. congruence.
Qed.
